(** * Schengen visa photo processor: crop geometry, normalisation, print sheet

    A shallow embedding of [visa_photo_processor.py].

    - The geometry of [crop_and_resize] is computed in Python floats
      (IEEE-754 binary64) and truncated to pixel coordinates with [int].  It
      is modelled on rationals, every operation followed by an explicit
      rounding to 53 significant bits, round-to-nearest-even.
    - The layout of [create_4x6_print] is integer arithmetic, modelled on [Z].
    - Pixel contents are abstracted: an image is its size together with the
      list of paste and outline operations applied to it.
    - Exceptions are values of a [result] type; [process_photo] threads the
      saved files through its stages.
    - What the file system, the decoder and the detector answer in a run is
      a parameter of [process_photo]; each of them may raise.

    Image sides are positive and below 2^31, as Pillow stores them. *)

From Stdlib Require Import ZArith QArith Qround Qabs Qpower Qreduction.
From Stdlib Require Import Lia Lqa List Bool String Ascii Floats.
Import ListNotations.

Local Open Scope Z_scope.

(* ================================================================== *)
(** * Part I: the program *)
(* ================================================================== *)

(** ** Binary64 arithmetic, as rationals with explicit rounding *)

Module Binary64.
Local Open Scope Q_scope.

(** Number of significant bits of a Python float. *)
Definition prec : Z := 53.

Definition pow2 (e : Z) : Q := 2 ^ e.

(** [mag x] is the binary exponent of a positive rational:
    [2^(mag x) <= x < 2^(mag x + 1)]. *)
Definition mag (x : Q) : Z :=
  let l := (Z.log2 (Qnum x) - Z.log2 (Zpos (Qden x)))%Z in
  if Qle_bool (pow2 l) x then l else (l - 1)%Z.

(** Round to the nearest integer, ties to even. *)
Definition rne (q : Q) : Z :=
  let f := Qfloor q in
  match Qcompare (q - inject_Z f) (1 # 2) with
  | Lt => f
  | Gt => (f + 1)%Z
  | Eq => if Z.even f then f else (f + 1)%Z
  end.

(** Rounding of a positive rational to [prec] significant bits.  The
    exponent range is left unbounded: overflow and subnormals, which start
    at 2^1024 and below 2^-1022, are out of reach of pixel arithmetic. *)
Definition round_pos (x : Q) : Q :=
  let e := (mag x - (prec - 1))%Z in
  Qred (inject_Z (rne (x * pow2 (- e))) * pow2 e).

Definition fl (x : Q) : Q :=
  match Qnum x with
  | Z0 => 0
  | Zpos _ => round_pos x
  | Zneg _ => - round_pos (- x)
  end.

(** [is_float x]: [x] is a binary64 value, that is, rounding keeps it. *)
Definition is_float (x : Q) : Prop := fl x == x.

(** A decimal literal of the source, e.g. [1.3] is [literal 13 10]. *)
Definition literal (n : Z) (d : positive) : Q := fl (n # d).

(** Conversion of a Python [int] operand in mixed arithmetic. *)
Definition of_int (n : Z) : Q := fl (inject_Z n).

Definition fadd (a b : Q) : Q := fl (a + b).
Definition fsub (a b : Q) : Q := fl (a - b).
Definition fmul (a b : Q) : Q := fl (a * b).
Definition fdiv (a b : Q) : Q := fl (a / b).

(** [a / b] on two Python ints: the correctly rounded quotient. *)
Definition int_truediv (a b : Z) : Q := fl (inject_Z a / inject_Z b).

(** [a > b] and [a < b]. *)
Definition gtb (a b : Q) : bool := negb (Qle_bool a b).
Definition ltb (a b : Q) : bool := negb (Qle_bool b a).

(** [int(x)]: truncation toward zero. *)
Definition to_int (x : Q) : Z := Z.quot (Qnum x) (Zpos (Qden x)).

(** The builtins [min(a, b)] and [max(a, b)]: the first argument is kept
    unless the second is strictly smaller (resp. larger). *)
Definition py_min (a b : Q) : Q := if ltb b a then b else a.
Definition py_max (a b : Q) : Q := if gtb b a then b else a.

End Binary64.

(** The value of a hardware float, for comparing the rounding above with
    the primitive binary64 operations on the scenario inputs. *)
Definition SF2Q (f : spec_float) : option Q :=
  match f with
  | S754_zero _ => Some 0%Q
  | S754_finite s m e =>
      let v := (inject_Z (Zpos m) * Binary64.pow2 e)%Q in
      Some (Qred (if s then Qopp v else v))
  | _ => None
  end.

Definition prim_value (f : float) : option Q := SF2Q (Prim2SF f).

(** ** Python strings: [str.replace] *)

Local Open Scope string_scope.

(** Left-to-right replacement of the non-overlapping occurrences of a
    non-empty [old]; [skip] counts the characters of a matched occurrence
    still to be dropped. *)
Fixpoint replace_from (old new : string) (skip : nat) (s : string) : string :=
  match s with
  | EmptyString => EmptyString
  | String c s' =>
      match skip with
      | S k => replace_from old new k s'
      | O =>
          if prefix old s
          then new ++ replace_from old new (String.length old - 1) s'
          else String c (replace_from old new 0 s')
      end
  end.

(** With an empty [old], Python inserts [new] before every character and at
    the end. *)
Fixpoint intersperse (new s : string) : string :=
  match s with
  | EmptyString => new
  | String c s' => new ++ String c (intersperse new s')
  end.

Definition replace (s old new : string) : string :=
  match old with
  | EmptyString => intersperse new s
  | _ => replace_from old new 0 s
  end.

Local Close Scope string_scope.

(** ** Errors *)

(** The exceptions the modelled code can raise; [OSError] and [CvError]
    come from the file system and from OpenCV. *)
Inductive exn : Type :=
| NameError (name : string)
| ZeroDivisionError
| ValueError (msg : string)
| OSError (msg : string)
| CvError (msg : string).

Inductive result (A : Type) : Type :=
| Ok (a : A)
| Raise (e : exn).
Arguments Ok {A} a.
Arguments Raise {A} e.

Definition bind {A B : Type} (r : result A) (k : A -> result B) : result B :=
  match r with
  | Ok a => k a
  | Raise e => Raise e
  end.

Notation "x <- r ;; k" := (bind r (fun x => k))
  (at level 61, r at next level, right associativity).

(** ** Images *)

(** A rectangle [(x0, y0, x1, y1)]: left, upper, right, lower. *)
Definition Box : Type := (Z * Z * Z * Z)%type.

Inductive DrawOp : Type :=
| Paste (src_size : Z * Z) (at_xy : Z * Z)
| Outline (box : Box) (colour : Z * Z * Z) (thickness : Z).

Record Image : Type := mkImage {
  size : Z * Z;
  ops : list DrawOp
}.

(** [Image.new(mode, size, colour)]: Pillow rejects a negative side. *)
Definition Image_new (sz : Z * Z) : result Image :=
  if (fst sz <? 0) || (snd sz <? 0)
  then Raise (ValueError "Width and height must be >= 0")
  else Ok (mkImage sz []).

(** [image.crop(box)]: the region may leave the image; Pillow rejects a box
    whose right is left of its left or whose lower is above its upper. *)
Definition crop (image : Image) (box : Box) : result Image :=
  let '(x0, y0, x1, y1) := box in
  if x1 <? x0 then Raise (ValueError "Coordinate 'right' is less than 'left'")
  else if y1 <? y0 then Raise (ValueError "Coordinate 'lower' is less than 'upper'")
  else Ok (mkImage (x1 - x0, y1 - y0) []).

(** [image.resize(size, Image.LANCZOS)]: a new image of the requested size. *)
Definition resize (image : Image) (sz : Z * Z) : result Image :=
  if (fst sz <? 1) || (snd sz <? 1)
  then Raise (ValueError "height and width must be > 0")
  else Ok (mkImage sz []).

(** [image.paste(src, (x, y))] and [draw.rectangle(box, outline, width)]
    mutate the destination; here they extend its list of operations.  A
    paste may leave the destination, where it is clipped; Pillow rejects a
    rectangle whose second corner is left of or above its first. *)
Definition paste (dst src : Image) (xy : Z * Z) : Image :=
  mkImage (size dst) (ops dst ++ [Paste (size src) xy]).

Definition draw_rectangle (dst : Image) (box : Box) (colour : Z * Z * Z)
    (thickness : Z) : result Image :=
  let '(x0, y0, x1, y1) := box in
  if x1 <? x0 then Raise (ValueError "x1 must be greater than or equal to x0")
  else if y1 <? y0 then Raise (ValueError "y1 must be greater than or equal to y0")
  else Ok (mkImage (size dst) (ops dst ++ [Outline box colour thickness])).

(** ** The processor and its constants *)

Record VisaPhotoProcessor : Type := mkProcessor {
  target_width_mm : Z;
  target_height_mm : Z;
  dpi : Z;
  target_width_px : Z;
  target_height_px : Z;
  print_width_px : Z;
  print_height_px : Z
}.

(** Division of two Python ints, and of a Python float by a Python float:
    both raise on a zero divisor. *)
Definition truediv (a b : Z) : result Q :=
  if b =? 0 then Raise ZeroDivisionError else Ok (Binary64.int_truediv a b).

Definition float_truediv (a b : Q) : result Q :=
  if Qeq_bool b 0 then Raise ZeroDivisionError else Ok (Binary64.fdiv a b).

(** [VisaPhotoProcessor.__init__]: 35mm x 45mm at 300 DPI, and a 6in x 4in
    sheet.  The divisor [25.4] is a non-zero literal. *)
Definition init : VisaPhotoProcessor :=
  let mm := 35 in
  let hmm := 45 in
  let d := 300 in
  let inch := Binary64.literal 254 10 in
  {| target_width_mm := mm;
     target_height_mm := hmm;
     dpi := d;
     target_width_px :=
       Binary64.to_int
         (Binary64.fmul (Binary64.fdiv (Binary64.of_int mm) inch) (Binary64.of_int d));
     target_height_px :=
       Binary64.to_int
         (Binary64.fmul (Binary64.fdiv (Binary64.of_int hmm) inch) (Binary64.of_int d));
     print_width_px := 6 * d;
     print_height_px := 4 * d |}.

(** ** [crop_and_resize] *)

(** A face bounding box [(x, y, w, h)]. *)
Definition FaceBox : Type := (Z * Z * Z * Z)%type.

(** The locals of the face branch up to the boundary clamp (lines 86-113).
    [crop_x0], [crop_y0] are [crop_x], [crop_y] before the clamp, [crop_x],
    [crop_y] after it. *)
Record FaceFrame : Type := mkFaceFrame {
  face_center_x : Z;
  face_center_y : Z;
  estimated_head_height : Q;
  photo_height : Q;
  photo_width : Q;
  face_offset_y : Q;
  crop_center_x : Z;
  crop_center_y : Q;
  crop_x0 : Q;
  crop_y0 : Q;
  crop_x : Q;
  crop_y : Q
}.

Section CropGeometry.
Import Binary64.

(** The face box comes from the detector as integers; the products with the
    float literals make every derived quantity a float.  Box coordinates are
    taken as unbounded integers: inside an image they are far from any
    machine-integer limit. *)
Definition face_frame (target_aspect_ratio : Q) (width height : Z)
    (face_box : FaceBox) : FaceFrame :=
  let '(x, y, w, h) := face_box in
  let face_center_x := x + w / 2 in
  let face_center_y := y + h / 2 in
  let head_to_photo_ratio := literal 70 100 in
  let estimated_head_height := fmul (of_int h) (literal 13 10) in
  let photo_height := fdiv estimated_head_height head_to_photo_ratio in
  let photo_width := fmul photo_height target_aspect_ratio in
  let face_offset_y := fmul (of_int h) (literal 3 10) in
  let crop_center_y := fsub (of_int face_center_y) face_offset_y in
  let crop_center_x := face_center_x in
  let crop_y0 := fsub crop_center_y (fdiv photo_height 2) in
  let crop_x0 := fsub (of_int crop_center_x) (fdiv photo_width 2) in
  let crop_x := py_max 0 (py_min crop_x0 (fsub (of_int width) photo_width)) in
  let crop_y := py_max 0 (py_min crop_y0 (fsub (of_int height) photo_height)) in
  mkFaceFrame face_center_x face_center_y estimated_head_height photo_height
    photo_width face_offset_y crop_center_x crop_center_y crop_x0 crop_y0
    crop_x crop_y.

(** The test of line 116: the desired crop is larger than the image. *)
Definition too_large (f : FaceFrame) (width height : Z) : bool :=
  gtb (photo_width f) (inject_Z width) || gtb (photo_height f) (inject_Z height).

(** Lines 82-142: the crop rectangle.  In the scale-down branch the
    assignment to [crop_y] reads [face_position_ratio], a name bound nowhere
    in the module, so the branch ends in a [NameError]; the values computed
    before it are never used. *)
Definition crop_box (self : VisaPhotoProcessor) (width height : Z)
    (face_box : option FaceBox) : result Box :=
  target_aspect_ratio <- truediv (target_width_px self) (target_height_px self) ;;
  match face_box with
  | Some fb =>
      let f := face_frame target_aspect_ratio width height fb in
      if too_large f width height then
        let scale_factor :=
          fmul (py_min (fdiv (of_int width) (photo_width f))
                       (fdiv (of_int height) (photo_height f)))
               (literal 95 100) in
        let photo_width := fmul (photo_width f) scale_factor in
        let photo_height := fmul (photo_height f) scale_factor in
        let crop_x := fsub (of_int (face_center_x f)) (fdiv photo_width 2) in
        Raise (NameError "face_position_ratio")
      else
        Ok (to_int (crop_x f), to_int (crop_y f),
            to_int (fadd (crop_x f) (photo_width f)),
            to_int (fadd (crop_y f) (photo_height f)))
  | None =>
      ratio <- truediv width height ;;
      if gtb ratio target_aspect_ratio then
        let new_width := to_int (fmul (of_int height) target_aspect_ratio) in
        let crop_x := (width - new_width) / 2 in
        Ok (crop_x, 0, crop_x + new_width, height)
      else
        q <- float_truediv (of_int width) target_aspect_ratio ;;
        let new_height := to_int q in
        let crop_y := (height - new_height) / 4 in
        Ok (0, crop_y, width, crop_y + new_height)
  end.

End CropGeometry.

Definition crop_and_resize (self : VisaPhotoProcessor) (image : Image)
    (face_box : option FaceBox) : result Image :=
  let '(width, height) := size image in
  box <- crop_box self width height face_box ;;
  cropped <- crop image box ;;
  let '(crop_width, crop_height) := size cropped in
  crop_aspect_ratio <- truediv crop_width crop_height ;;
  resize cropped (target_width_px self, target_height_px self).

(** ** The remaining stages, which keep the size of the image *)

(** [remove_background] returns the segmented image or, when segmentation
    fails, the input converted to RGBA: the same canvas either way. *)
Definition remove_background (image : Image) : Image := image.

Definition add_white_background (image : Image) : result Image :=
  background <- Image_new (size image) ;;
  Ok (paste background image (0, 0)).

Definition enhance_image (image : Image) : Image := image.

(** ** [create_4x6_print] *)

Definition photos_per_row : Z := 3.
Definition photos_per_col : Z := 2.
Definition photo_margin : Z := 10.
Definition border_color : Z * Z * Z := (230, 230, 230).
Definition border_thickness : Z := 1.

Definition cell_width (self : VisaPhotoProcessor) : Z :=
  target_width_px self + 2 * photo_margin.
Definition cell_height (self : VisaPhotoProcessor) : Z :=
  target_height_px self + 2 * photo_margin.
Definition total_grid_width (self : VisaPhotoProcessor) : Z :=
  photos_per_row * cell_width self.
Definition total_grid_height (self : VisaPhotoProcessor) : Z :=
  photos_per_col * cell_height self.
Definition start_x (self : VisaPhotoProcessor) : Z :=
  (print_width_px self - total_grid_width self) / 2.
Definition start_y (self : VisaPhotoProcessor) : Z :=
  (print_height_px self - total_grid_height self) / 2.

(** [range(n)]. *)
Definition range (n : Z) : list Z := map Z.of_nat (seq 0 (Z.to_nat n)).

(** A [for] loop whose body may raise: the first exception ends it. *)
Fixpoint for_each {A B : Type} (body : A -> B -> result A) (items : list B)
    (acc : A) : result A :=
  match items with
  | [] => Ok acc
  | item :: rest => acc <- body acc item ;; for_each body rest acc
  end.

(** One iteration of the inner loop: paste the photo, outline it. *)
Definition place_photo (self : VisaPhotoProcessor) (visa_photo : Image)
    (row col : Z) (print_image : Image) : result Image :=
  let cell_x := start_x self + col * cell_width self in
  let cell_y := start_y self + row * cell_height self in
  let photo_x := cell_x + photo_margin in
  let photo_y := cell_y + photo_margin in
  let print_image := paste print_image visa_photo (photo_x, photo_y) in
  draw_rectangle print_image
    (photo_x - border_thickness, photo_y - border_thickness,
     photo_x + target_width_px self + border_thickness,
     photo_y + target_height_px self + border_thickness)
    border_color border_thickness.

Definition create_4x6_print (self : VisaPhotoProcessor) (visa_photo : Image)
    : result Image :=
  print_image <- Image_new (print_width_px self, print_height_px self) ;;
  for_each
    (fun img row =>
       for_each (fun img col => place_photo self visa_photo row col img)
                (range photos_per_row) img)
    (range photos_per_col) print_image.

(** The rectangles covered by the pasted photos, in paste order. *)
Definition pasted_boxes (image : Image) : list Box :=
  flat_map
    (fun op =>
       match op with
       | Paste (w, h) (x, y) => [(x, y, x + w, y + h)]
       | Outline _ _ _ => []
       end)
    (ops image).

(** ** [process_photo] *)

(** Saved files, most recent first; reading a path finds its latest save. *)
Definition FileSystem : Type := list (string * Image).

Fixpoint file_at (fs : FileSystem) (path : string) : option Image :=
  match fs with
  | [] => None
  | (p, image) :: rest => if String.eqb p path then Some image else file_at rest path
  end.

(** What the collaborators outside the geometry deliver in one run, in the
    order [process_photo] meets them:
    - [output_dir_ready]: lines 252-255, where [os.makedirs] is called when
      the directory part of the output path is non-empty and missing, and
      may raise;
    - [opened]: [Image.open(input_path)];
    - [grayscale]: the conversion and the classifier calls of [detect_face],
      which may raise;
    - [detected]: what [detect_face] returns when they do not;
    - [writable]: whether [save] can write the file of that path. *)
Record Run : Type := mkRun {
  output_dir_ready : result unit;
  opened : result Image;
  grayscale : result unit;
  detected : option FaceBox;
  writable : string -> bool
}.

(** [image.save(path, "JPEG", ...)]: the file is written, or the call
    raises and leaves no file. *)
Definition save (run : Run) (fs : FileSystem) (path : string) (image : Image)
    : result FileSystem :=
  if writable run path then Ok ((path, image) :: fs)
  else Raise (OSError path).

(** Any exception of a stage is caught at the end and turns the outcome
    into [False]; files saved before it stay saved. *)
Definition process_photo (self : VisaPhotoProcessor) (run : Run)
    (fs : FileSystem) (output_path : string) (remove_bg create_print : bool)
    : bool * FileSystem :=
  let stages :=
    _ <- output_dir_ready run ;;
    image <- opened run ;;
    _ <- grayscale run ;;
    let face_box := detected run in
    let image := if remove_bg then remove_background image else image in
    image <- crop_and_resize self image face_box ;;
    image <- add_white_background image ;;
    let image := enhance_image image in
    Ok image in
  match stages with
  | Raise _ => (false, fs)
  | Ok image =>
      match save run fs output_path image with
      | Raise _ => (false, fs)
      | Ok fs =>
          if create_print then
            let print_output_path :=
              replace output_path ".jpg" "_4x6_print.jpg" in
            match
              print_image <- create_4x6_print self image ;;
              save run fs print_output_path print_image
            with
            | Raise _ => (false, fs)
            | Ok fs' => (true, fs')
            end
          else (true, fs)
      end
  end.

(** ** Vocabulary of the specification *)

Definition box_width (b : Box) : Z := let '(x0, _, x1, _) := b in x1 - x0.
Definition box_height (b : Box) : Z := let '(_, y0, _, y1) := b in y1 - y0.

(** The region is fully contained in [[0,W] x [0,H]]. *)
Definition inside (b : Box) (W H : Z) : Prop :=
  let '(x0, y0, x1, y1) := b in
  0 <= x0 /\ x0 <= x1 /\ x1 <= W /\ 0 <= y0 /\ y0 <= y1 /\ y1 <= H.

(** [target_width_px / target_height_px] as an exact ratio. *)
Definition target_ratio (self : VisaPhotoProcessor) : Q :=
  (inject_Z (target_width_px self) / inject_Z (target_height_px self))%Q.

(** The width/height ratio of the region is within 1% of the target. *)
Definition aspect_within_1pct (self : VisaPhotoProcessor) (b : Box) : Prop :=
  (Qabs (inject_Z (box_width b) / inject_Z (box_height b) - target_ratio self)
   <= (1 # 100) * target_ratio self)%Q.

(** A face box with positive extent that lies in the image. *)
Definition valid_face_box (fb : FaceBox) (W H : Z) : Prop :=
  let '(x, y, w, h) := fb in
  0 <= x /\ 0 <= y /\ 0 < w /\ 0 < h /\ x + w <= W /\ y + h <= H.

(** Agreement with a value quoted to one decimal place. *)
Definition approx (x v : Q) : Prop := (Qabs (x - v) <= 1 # 20)%Q.

(** Two rectangles share no pixel. *)
Definition disjoint (a b : Box) : Prop :=
  let '(ax0, ay0, ax1, ay1) := a in
  let '(bx0, by0, bx1, by1) := b in
  ax1 <= bx0 \/ bx1 <= ax0 \/ ay1 <= by0 \/ by1 <= ay0.

(** The grid of cells is larger than the sheet. *)
Definition grid_exceeds_sheet (self : VisaPhotoProcessor) : Prop :=
  total_grid_width self > print_width_px self \/
  total_grid_height self > print_height_px self.

(** The aspect ratio the default processor computes on line 83. *)
Definition default_aspect_ratio : Q :=
  Binary64.int_truediv (target_width_px init) (target_height_px init).

(** The scenario of the specification: a 1000x1200 image with the face box
    [(400, 300, 200, 250)]. *)
Definition scenario_frame : FaceFrame :=
  face_frame default_aspect_ratio 1000 1200 (400, 300, 200, 250).

(** The grid of the specification, whose cells are the photo handed to the
    layout plus the margin on each side, is larger than the sheet:
    [C * (photo_w + 2m) > SW] or [R * (photo_h + 2m) > SH]. *)
Definition photo_grid_exceeds_sheet (self : VisaPhotoProcessor) (photo : Image)
    : Prop :=
  photos_per_row * (fst (size photo) + 2 * photo_margin) > print_width_px self \/
  photos_per_col * (snd (size photo) + 2 * photo_margin) > print_height_px self.

(** A run in which the output directory, the decoder, the detector and the
    disk all cooperate: the input decodes to [image], the detector answers
    [face] and every path can be written. *)
Definition cooperative (image : Image) (face : option FaceBox) : Run :=
  mkRun (Ok tt) (Ok image) (Ok tt) face (fun _ => true).

(** The same run on a disk that refuses the paths [refused] accepts. *)
Definition with_refused (refused : string -> bool) (run : Run) : Run :=
  mkRun (output_dir_ready run) (opened run) (grayscale run) (detected run)
        (fun path => negb (refused path) && writable run path).

(** [old] occurs somewhere in [s]. *)
Fixpoint occurs (old s : string) : bool :=
  match s with
  | EmptyString => prefix old EmptyString
  | String _ s' => prefix old s || occurs old s'
  end.

(** [photo_height] and [photo_width] of the face branch, which depend on the
    height of the face box only. *)
Definition photo_height_of (h : Z) : Q :=
  Binary64.fdiv (Binary64.fmul (Binary64.of_int h) (Binary64.literal 13 10))
                (Binary64.literal 70 100).

Definition photo_width_of (h : Z) : Q :=
  Binary64.fmul (photo_height_of h) default_aspect_ratio.

(** Comparison with the primitive binary64 operations: the photo size for a
    face of height [h], and the centre-crop products for a side [n]. *)
Definition same_value (f : float) (q : Q) : bool :=
  match prim_value f with
  | Some v => Qeq_bool v q
  | None => false
  end.

Definition hardware_agrees_on_face (h : Z) : bool :=
  let hf := PrimFloat.of_uint63 (Uint63.of_Z h) in
  let ph := (hf * 0x1.4cccccccccccdp+0 / 0x1.6666666666666p-1)%float in
  same_value ph (photo_height_of h) &&
  same_value (ph * (413 / 531))%float (photo_width_of h).

Definition hardware_agrees_on_side (n : Z) : bool :=
  let nf := PrimFloat.of_uint63 (Uint63.of_Z n) in
  same_value (nf * (413 / 531))%float
             (Binary64.fmul (Binary64.of_int n) default_aspect_ratio) &&
  same_value (nf / (413 / 531))%float
             (Binary64.fdiv (Binary64.of_int n) default_aspect_ratio).

(** ** [detect_face] *)

(** Two's-complement wrap-around of a 32-bit signed integer: the detector
    returns its rectangles as 32-bit integers, and so is their product. *)
Definition wrap32 (n : Z) : Z := (n + 2 ^ 31) mod 2 ^ 32 - 2 ^ 31.

(** The key of line 58, [x[2] * x[3]]. *)
Definition face_area (f : FaceBox) : Z :=
  let '(_, _, w, h) := f in wrap32 (w * h).

(** [max(iterable, key=...)] from a first element on: an element replaces
    the best one so far only when its key is strictly larger. *)
Fixpoint max_by {A : Type} (key : A -> Z) (best : A) (rest : list A) : A :=
  match rest with
  | [] => best
  | x :: rest' =>
      if key best <? key x then max_by key x rest' else max_by key best rest'
  end.

(** [strict] and [relaxed] are what the cascade finds with the first and
    with the second set of parameters; the second detection is consulted
    only when the first finds nothing. *)
Definition detect_face (strict relaxed : list FaceBox) : option FaceBox :=
  let faces := strict in
  let faces := match faces with [] => relaxed | _ :: _ => faces end in
  match faces with
  | [] => None
  | first :: rest => Some (max_by face_area first rest)
  end.

(** ** [main] *)

Local Open Scope string_scope.

(** [s.rfind(c)]: the index of the last [c], or -1. *)
Fixpoint rfind_from (c : ascii) (s : string) (i last : Z) : Z :=
  match s with
  | EmptyString => last
  | String a s' => rfind_from c s' (i + 1)%Z (if Ascii.eqb a c then i else last)
  end.

Definition rfind (c : ascii) (s : string) : Z := rfind_from c s 0%Z (-1)%Z.

(** The slices [s[i:]] and [s[:i]] for [0 <= i]. *)
Fixpoint drop (n : nat) (s : string) : string :=
  match n, s with
  | O, _ => s
  | S n', String _ s' => drop n' s'
  | S _, EmptyString => EmptyString
  end.

Fixpoint take (n : nat) (s : string) : string :=
  match n, s with
  | O, _ => EmptyString
  | S n', String a s' => String a (take n' s')
  | S _, EmptyString => EmptyString
  end.

Definition slice_from (i : Z) (s : string) : string := drop (Z.to_nat i) s.

Definition slice_to (i : Z) (s : string) : string := take (Z.to_nat i) s.

Fixpoint all_dots (s : string) : bool :=
  match s with
  | EmptyString => true
  | String a s' => Ascii.eqb a "." && all_dots s'
  end.

(** [os.path.basename] and [os.path.splitext] on POSIX paths.  An extension
    starts at the last dot of the last component, unless only dots precede
    it there. *)
Definition basename (p : string) : string :=
  slice_from (rfind "/" p + 1)%Z p.

Definition splitext (p : string) : string * string :=
  let sepIndex := rfind "/" p in
  let dotIndex := rfind "." p in
  if Z.ltb sepIndex dotIndex then
    let filenameIndex := (sepIndex + 1)%Z in
    if all_dots (slice_to (dotIndex - filenameIndex)%Z (slice_from filenameIndex p))
    then (p, EmptyString)
    else (slice_to dotIndex p, slice_from dotIndex p)
  else (p, EmptyString).

Record Args : Type := mkArgs {
  input : string;
  output : option string;
  no_bg_removal : bool;
  no_print : bool
}.

(** The output file name generated when [--output] is absent. *)
Definition default_output (input_path : string) : string :=
  let input_filename := basename input_path in
  let base_name := fst (splitext input_filename) in
  "output/" ++ base_name ++ "_visa.jpg".

(** [main]: the exit status and the files afterwards.  [input_exists] is
    the answer of [os.path.exists(args.input)]; a normal return is status 0. *)
Definition main (args : Args) (input_exists : bool) (run : Run)
    (fs : FileSystem) : Z * FileSystem :=
  if negb input_exists then (1%Z, fs)
  else
    let output_path :=
      match output args with
      | None => default_output (input args)
      | Some path => path
      end in
    let '(success, fs') :=
      process_photo init run fs output_path
                    (negb (no_bg_removal args)) (negb (no_print args)) in
    if success then (0%Z, fs') else (1%Z, fs').

Local Close Scope string_scope.

(** ** Further vocabulary *)

(** The character [c] occurs in [s]. *)
Fixpoint contains (c : ascii) (s : string) : bool :=
  match s with
  | EmptyString => false
  | String a s' => Ascii.eqb a c || contains c s'
  end.

(** The area of a face box as a number. *)
Definition true_area (f : FaceBox) : Z := let '(_, _, w, h) := f in w * h.

(** The faces [detect_face] chooses from. *)
Definition candidates (strict relaxed : list FaceBox) : list FaceBox :=
  match strict with [] => relaxed | _ :: _ => strict end.

(** The outline rectangles drawn on an image, in drawing order. *)
Definition outlined_boxes (image : Image) : list Box :=
  flat_map
    (fun op =>
       match op with
       | Paste _ _ => []
       | Outline box _ _ => [box]
       end)
    (ops image).

(** A rectangle grown by [d] pixels on every side. *)
Definition grow (d : Z) (b : Box) : Box :=
  let '(x0, y0, x1, y1) := b in (x0 - d, y0 - d, x1 + d, y1 + d).

(** The rectangle [a] lies in the rectangle [b]. *)
Definition within (a b : Box) : Prop :=
  let '(ax0, ay0, ax1, ay1) := a in
  let '(bx0, by0, bx1, by1) := b in
  bx0 <= ax0 /\ ax1 <= bx1 /\ by0 <= ay0 /\ ay1 <= by1.

(** The rectangle of a face box. *)
Definition face_rect (fb : FaceBox) : Box :=
  let '(x, y, w, h) := fb in (x, y, x + w, y + h).

(* ================================================================== *)
(** * Part II: properties *)
(* ================================================================== *)

(** ** The rounding function *)

Module Binary64Facts.
Import Binary64.
Local Open Scope Q_scope.

Lemma pow2_pos e : 0 < pow2 e.
Proof. apply Qpower_0_lt. reflexivity. Qed.

Lemma pow2_add a b : pow2 (a + b) == pow2 a * pow2 b.
Proof. apply Qpower_plus. discriminate. Qed.

Lemma pow2_le a b : (a <= b)%Z -> pow2 a <= pow2 b.
Proof. intros H. apply Qpower_le_compat_l; [exact H | discriminate]. Qed.

Lemma pow2_lt a b : (a < b)%Z -> pow2 a < pow2 b.
Proof. intros H. apply Qpower_lt_compat_l; [exact H | reflexivity]. Qed.

Lemma pow2_lt_inv a b : pow2 a < pow2 b -> (a < b)%Z.
Proof. intros H. apply (Qpower_lt_compat_l_inv 2); [exact H | reflexivity]. Qed.

Lemma pow2_cancel e : pow2 e * pow2 (- e) == 1.
Proof. rewrite <- pow2_add, Z.add_opp_diag_r. reflexivity. Qed.

Lemma pow2_Z n : (0 <= n)%Z -> pow2 n == inject_Z (2 ^ n).
Proof. intros H. unfold pow2. rewrite Zpower_Qpower by exact H. reflexivity. Qed.

(** Scaling by a power of two and back. *)
Lemma scale_back x e : x * pow2 (- e) * pow2 e == x.
Proof.
  rewrite <- Qmult_assoc, (Qmult_comm (pow2 (- e))), pow2_cancel.
  apply Qmult_1_r.
Qed.

Lemma mag_spec x : 0 < x -> pow2 (mag x) <= x /\ x < pow2 (mag x + 1).
Proof.
  destruct x as [n d]. intros Hx.
  assert (Hn : (0 < n)%Z) by (unfold Qlt in Hx; simpl in Hx; lia).
  destruct (Z.log2_spec n Hn) as [Hn1 Hn2].
  destruct (Z.log2_spec (Zpos d) (Pos2Z.is_pos d)) as [Hd1 Hd2].
  set (a := Z.log2 n) in *. set (b := Z.log2 (Zpos d)) in *.
  assert (Ha : (0 <= a)%Z) by apply Z.log2_nonneg.
  assert (Hb : (0 <= b)%Z) by apply Z.log2_nonneg.
  assert (Hdq : 0 < inject_Z (Zpos d)) by reflexivity.
  assert (Hlo : pow2 (a - b - 1) <= n # d).
  { rewrite Qmake_Qdiv. apply Qle_shift_div_l; [exact Hdq |].
    apply Qle_trans with (pow2 (a - b - 1) * pow2 (b + 1)).
    - apply Qmult_le_l; [apply pow2_pos |].
      rewrite pow2_Z by lia. rewrite <- Zle_Qle. lia.
    - rewrite <- pow2_add. replace (a - b - 1 + (b + 1))%Z with a by ring.
      rewrite pow2_Z by lia. rewrite <- Zle_Qle. exact Hn1. }
  assert (Hhi : n # d < pow2 (a - b + 1)).
  { rewrite Qmake_Qdiv. apply Qlt_shift_div_r; [exact Hdq |].
    apply Qlt_le_trans with (pow2 (a - b + 1) * pow2 b).
    - rewrite <- pow2_add. replace (a - b + 1 + b)%Z with (a + 1)%Z by ring.
      rewrite pow2_Z by lia. rewrite <- Zlt_Qlt. exact Hn2.
    - apply Qmult_le_l; [apply pow2_pos |].
      rewrite pow2_Z by lia. rewrite <- Zle_Qle. exact Hd1. }
  unfold mag. cbn [Qnum Qden]. fold a. fold b.
  destruct (Qle_bool (pow2 (a - b)) (n # d)) eqn:E.
  - split; [apply Qle_bool_iff; exact E | exact Hhi].
  - split; [exact Hlo |].
    replace (a - b - 1 + 1)%Z with (a - b)%Z by ring.
    apply Qnot_le_lt. intros C. apply Qle_bool_iff in C. congruence.
Qed.

Lemma mag_unique x k : 0 < x -> pow2 k <= x -> x < pow2 (k + 1) -> mag x = k.
Proof.
  intros Hx H1 H2. destruct (mag_spec x Hx) as [M1 M2].
  assert (mag x < k + 1)%Z by (apply pow2_lt_inv; lra).
  assert (k < mag x + 1)%Z by (apply pow2_lt_inv; lra).
  lia.
Qed.

Lemma mag_le x y : 0 < x -> x <= y -> (mag x <= mag y)%Z.
Proof.
  intros Hx Hxy. destruct (mag_spec x Hx) as [M1 _].
  destruct (mag_spec y) as [_ N2]; [lra |].
  assert (mag x < mag y + 1)%Z by (apply pow2_lt_inv; lra).
  lia.
Qed.

(** *** Rounding to the nearest integer *)

Lemma rne_bounds q : (Qfloor q <= rne q <= Qfloor q + 1)%Z.
Proof.
  unfold rne. destruct (Qcompare _ _); [destruct (Z.even _) | |]; lia.
Qed.

Lemma rne_int q n : q == inject_Z n -> rne q = n.
Proof.
  intros H. unfold rne.
  assert (F : Qfloor q = n) by (rewrite H; apply Qfloor_Z).
  rewrite F.
  assert (L : q - inject_Z n < 1 # 2) by (rewrite H; lra).
  destruct (Qcompare_spec (q - inject_Z n) (1 # 2)) as [A | A | A];
    [exfalso; lra | reflexivity | exfalso; lra].
Qed.

Lemma rne_mono a b : a <= b -> (rne a <= rne b)%Z.
Proof.
  intros H. pose proof (Qfloor_resp_le _ _ H) as F.
  pose proof (rne_bounds a) as Ba. pose proof (rne_bounds b) as Bb.
  destruct (Z.eq_dec (Qfloor a) (Qfloor b)) as [E | N]; [| lia].
  unfold rne in *. rewrite <- E in *.
  destruct (Qcompare_spec (a - inject_Z (Qfloor a)) (1 # 2)) as [A | A | A];
    destruct (Qcompare_spec (b - inject_Z (Qfloor a)) (1 # 2)) as [B | B | B];
    try destruct (Z.even (Qfloor a)); try lia; exfalso; lra.
Qed.

(** The result is within one half of the argument. *)
Lemma rne_near q : inject_Z (rne q) - (1 # 2) <= q /\ q <= inject_Z (rne q) + (1 # 2).
Proof.
  pose proof (Qfloor_le q) as L. pose proof (Qlt_floor q) as U.
  rewrite inject_Z_plus in U. change (inject_Z 1) with 1 in U.
  unfold rne.
  destruct (Qcompare_spec (q - inject_Z (Qfloor q)) (1 # 2)) as [A | A | A];
    [destruct (Z.even (Qfloor q)) | |];
    rewrite ?inject_Z_plus; change (inject_Z 1) with 1; split; lra.
Qed.

(** *** Rounding a positive rational *)

Lemma scaled_range x :
  0 < x ->
  pow2 (prec - 1) <= x * pow2 (- (mag x - (prec - 1))) /\
  x * pow2 (- (mag x - (prec - 1))) < pow2 prec.
Proof.
  intros Hx. destruct (mag_spec x Hx) as [M1 M2].
  set (e := (mag x - (prec - 1))%Z).
  pose proof (pow2_pos (- e)) as P.
  split.
  - apply Qle_trans with (pow2 (mag x) * pow2 (- e)).
    + rewrite <- pow2_add. apply pow2_le. unfold e. lia.
    + apply Qmult_le_compat_r; lra.
  - apply Qlt_le_trans with (pow2 (mag x + 1) * pow2 (- e)).
    + apply Qmult_lt_compat_r; lra.
    + rewrite <- pow2_add. apply pow2_le. unfold e. lia.
Qed.

Lemma round_pos_eq x :
  round_pos x ==
  inject_Z (rne (x * pow2 (- (mag x - (prec - 1))))) * pow2 (mag x - (prec - 1)).
Proof. unfold round_pos. apply Qred_correct. Qed.

(** The integer significand lies between 2^52 and 2^53. *)
Lemma significand_range x :
  0 < x ->
  (2 ^ (prec - 1) <= rne (x * pow2 (- (mag x - (prec - 1)))) <= 2 ^ prec)%Z.
Proof.
  intros Hx. destruct (scaled_range x Hx) as [S1 S2].
  set (s := x * pow2 (- (mag x - (prec - 1)))) in *.
  rewrite pow2_Z in S1, S2 by (unfold prec; lia).
  split.
  - rewrite <- (rne_int (inject_Z (2 ^ (prec - 1))) _ (Qeq_refl _)).
    apply rne_mono. exact S1.
  - rewrite <- (rne_int (inject_Z (2 ^ prec)) _ (Qeq_refl _)).
    apply rne_mono. lra.
Qed.

Lemma round_pos_pos x : 0 < x -> 0 < round_pos x.
Proof.
  intros Hx. rewrite round_pos_eq.
  pose proof (significand_range x Hx) as [S _].
  apply Qmult_lt_0_compat; [| apply pow2_pos].
  change 0 with (inject_Z 0). rewrite <- Zlt_Qlt.
  assert (0 < 2 ^ (prec - 1))%Z by (apply Z.pow_pos_nonneg; unfold prec; lia).
  lia.
Qed.

Lemma round_pos_mono x y : 0 < x -> x <= y -> round_pos x <= round_pos y.
Proof.
  intros Hx Hxy. assert (Hy : 0 < y) by lra.
  rewrite !round_pos_eq.
  pose proof (mag_le x y Hx Hxy) as M.
  set (ex := (mag x - (prec - 1))%Z). set (ey := (mag y - (prec - 1))%Z).
  destruct (Z.eq_dec (mag x) (mag y)) as [E | N].
  - assert (Ee : ex = ey) by (unfold ex, ey; lia). rewrite Ee.
    apply Qmult_le_compat_r; [| apply Qlt_le_weak, pow2_pos].
    rewrite <- Zle_Qle. apply rne_mono.
    apply Qmult_le_compat_r; [exact Hxy | apply Qlt_le_weak, pow2_pos].
  - pose proof (significand_range x Hx) as [_ Sx].
    pose proof (significand_range y Hy) as [Sy _].
    fold ex in Sx. fold ey in Sy.
    apply Qle_trans with (pow2 prec * pow2 ex).
    + apply Qmult_le_compat_r; [| apply Qlt_le_weak, pow2_pos].
      rewrite (pow2_Z prec) by (unfold prec; lia). rewrite <- Zle_Qle. exact Sx.
    + apply Qle_trans with (pow2 (prec - 1) * pow2 ey).
      * rewrite <- !pow2_add. apply pow2_le. unfold ex, ey. lia.
      * apply Qmult_le_compat_r; [| apply Qlt_le_weak, pow2_pos].
        rewrite (pow2_Z (prec - 1)) by (unfold prec; lia).
        rewrite <- Zle_Qle. exact Sy.
Qed.

(** A positive rational whose scaled value is an integer is a float. *)
Lemma round_pos_exact x z :
  0 < x -> x * pow2 (- (mag x - (prec - 1))) == inject_Z z -> round_pos x == x.
Proof.
  intros Hx Hz. rewrite round_pos_eq. rewrite (rne_int _ z Hz).
  rewrite <- Hz. apply scale_back.
Qed.

Lemma round_pos_compat x y : 0 < x -> x == y -> round_pos x == round_pos y.
Proof.
  intros Hx E. apply Qle_antisym; apply round_pos_mono; lra.
Qed.

(** Dyadic rationals with a significand below 2^53 are floats. *)
Lemma round_pos_dyadic m k :
  (0 < m < 2 ^ prec)%Z -> round_pos (inject_Z m * pow2 k) == inject_Z m * pow2 k.
Proof.
  intros [Hm1 Hm2].
  assert (Hmq : 0 < inject_Z m) by (change 0 with (inject_Z 0); rewrite <- Zlt_Qlt; lia).
  assert (Hx : 0 < inject_Z m * pow2 k)
    by (apply Qmult_lt_0_compat; [exact Hmq | apply pow2_pos]).
  set (x := inject_Z m * pow2 k) in *.
  destruct (mag_spec x Hx) as [M1 _].
  assert (Hlt : x < pow2 (prec + k)).
  { unfold x. rewrite pow2_add. apply Qmult_lt_compat_r; [apply pow2_pos |].
    rewrite pow2_Z by (unfold prec; lia). rewrite <- Zlt_Qlt. exact Hm2. }
  assert (Hmag : (mag x < prec + k)%Z) by (apply pow2_lt_inv; lra).
  set (e := (mag x - (prec - 1))%Z).
  apply (round_pos_exact x (m * 2 ^ (k - e))); [exact Hx |].
  fold e. unfold x. rewrite inject_Z_mult, <- pow2_Z by (unfold e; lia).
  rewrite <- Qmult_assoc, <- pow2_add.
  replace (k + - e)%Z with (k - e)%Z by ring. reflexivity.
Qed.

Lemma round_pos_idem x : 0 < x -> round_pos (round_pos x) == round_pos x.
Proof.
  intros Hx. pose proof (round_pos_pos x Hx) as Hp.
  pose proof (significand_range x Hx) as [S1 S2].
  pose proof (round_pos_eq x) as E.
  set (e := (mag x - (prec - 1))%Z) in *.
  set (M := rne (x * pow2 (- e))) in *.
  assert (P52 : (0 < 2 ^ (prec - 1))%Z) by (apply Z.pow_pos_nonneg; unfold prec; lia).
  destruct (Z.eq_dec M (2 ^ prec)) as [Top | Low].
  - assert (E' : round_pos x == inject_Z (2 ^ (prec - 1)) * pow2 (e + 1)).
    { rewrite E, Top.
      rewrite <- (pow2_Z prec), <- (pow2_Z (prec - 1)) by (unfold prec; lia).
      rewrite <- !pow2_add.
      replace (prec - 1 + (e + 1))%Z with (prec + e)%Z by ring. reflexivity. }
    rewrite (round_pos_compat _ _ Hp E'), E'.
    apply round_pos_dyadic. split; [exact P52 |].
    apply Z.pow_lt_mono_r; unfold prec; lia.
  - rewrite (round_pos_compat _ _ Hp E), E.
    apply round_pos_dyadic. lia.
Qed.

(** *** The rounding function on all rationals *)

Lemma fl_pos x : 0 < x -> fl x = round_pos x.
Proof.
  destruct x as [[| p | p] d]; intros H; try reflexivity; discriminate H.
Qed.

Lemma fl_neg x : x < 0 -> fl x = - round_pos (- x).
Proof.
  destruct x as [[| p | p] d]; intros H; try reflexivity; discriminate H.
Qed.

Lemma fl_zero x : x == 0 -> fl x = 0.
Proof.
  destruct x as [[| p | p] d]; intros H; try reflexivity; discriminate H.
Qed.

Lemma fl_cases x :
  (x < 0 /\ fl x = - round_pos (- x)) \/ (x == 0 /\ fl x = 0) \/
  (0 < x /\ fl x = round_pos x).
Proof.
  destruct (Qcompare_spec x 0) as [E | L | G].
  - right; left; split; [exact E | apply fl_zero, E].
  - left; split; [exact L | apply fl_neg, L].
  - right; right; split; [exact G | apply fl_pos, G].
Qed.

Theorem fl_mono x y : x <= y -> fl x <= fl y.
Proof.
  intros H.
  destruct (fl_cases x) as [[Hx Ex] | [[Hx Ex] | [Hx Ex]]];
    destruct (fl_cases y) as [[Hy Ey] | [[Hy Ey] | [Hy Ey]]];
    rewrite Ex, Ey; try (exfalso; lra); try lra.
  - assert (round_pos (- y) <= round_pos (- x)) by (apply round_pos_mono; lra).
    lra.
  - assert (0 < round_pos (- x)) by (apply round_pos_pos; lra). lra.
  - assert (0 < round_pos (- x)) by (apply round_pos_pos; lra).
    assert (0 < round_pos y) by (apply round_pos_pos; lra). lra.
  - assert (0 < round_pos y) by (apply round_pos_pos; lra). lra.
  - apply round_pos_mono; assumption.
Qed.

#[export] Instance fl_Proper : Proper (Qeq ==> Qeq) fl.
Proof. intros x y E. apply Qle_antisym; apply fl_mono; lra. Qed.

Lemma fl_opp x : fl (- x) == - fl x.
Proof.
  destruct (fl_cases x) as [[Hx Ex] | [[Hx Ex] | [Hx Ex]]]; rewrite Ex.
  - rewrite fl_pos by lra. lra.
  - rewrite fl_zero by lra. lra.
  - rewrite fl_neg by lra.
    rewrite (round_pos_compat (- - x) x) by lra. reflexivity.
Qed.

Lemma fl_nonneg x : 0 <= x -> 0 <= fl x.
Proof. intros H. apply (fl_mono 0 x H). Qed.

Lemma fl_idem x : fl (fl x) == fl x.
Proof.
  destruct (fl_cases x) as [[Hx Ex] | [[Hx Ex] | [Hx Ex]]]; rewrite Ex.
  - pose proof (round_pos_pos (- x)) as P.
    rewrite fl_opp, fl_pos by lra. rewrite round_pos_idem by lra. reflexivity.
  - reflexivity.
  - pose proof (round_pos_pos x Hx) as P.
    rewrite fl_pos by lra. apply round_pos_idem, Hx.
Qed.

Lemma is_float_fl x : is_float (fl x).
Proof. apply fl_idem. Qed.

Lemma is_float_dyadic m k : (Z.abs m < 2 ^ prec)%Z -> is_float (inject_Z m * pow2 k).
Proof.
  intros H. unfold is_float.
  destruct (Z.lt_trichotomy m 0) as [N | [Z0 | P]].
  - assert (E : inject_Z m * pow2 k == - (inject_Z (- m) * pow2 k))
      by (rewrite inject_Z_opp; ring).
    rewrite E, fl_opp.
    assert (Hp : 0 < inject_Z (- m) * pow2 k).
    { apply Qmult_lt_0_compat; [| apply pow2_pos].
      change 0 with (inject_Z 0). rewrite <- Zlt_Qlt. lia. }
    rewrite fl_pos by exact Hp. rewrite round_pos_dyadic by lia. reflexivity.
  - subst m. rewrite fl_zero; ring.
  - assert (Hp : 0 < inject_Z m * pow2 k).
    { apply Qmult_lt_0_compat; [| apply pow2_pos].
      change 0 with (inject_Z 0). rewrite <- Zlt_Qlt. lia. }
    rewrite fl_pos by exact Hp. apply round_pos_dyadic. lia.
Qed.

Lemma is_float_int n : (Z.abs n < 2 ^ prec)%Z -> is_float (inject_Z n).
Proof.
  intros H. pose proof (is_float_dyadic n 0 H) as F. unfold is_float in *.
  assert (E : inject_Z n * pow2 0 == inject_Z n) by (unfold pow2; simpl; ring).
  rewrite E in F. exact F.
Qed.

Lemma of_int_exact n : (Z.abs n < 2 ^ prec)%Z -> of_int n == inject_Z n.
Proof. apply is_float_int. Qed.

(** Rounding never crosses a float. *)
Lemma fl_le_float x y : is_float y -> x <= y -> fl x <= y.
Proof.
  intros F H. unfold is_float in F.
  apply Qle_trans with (fl y); [apply fl_mono, H | lra].
Qed.

Lemma fl_ge_float x y : is_float y -> y <= x -> y <= fl x.
Proof.
  intros F H. unfold is_float in F.
  apply Qle_trans with (fl y); [lra | apply fl_mono, H].
Qed.

(** *** Rounding error *)

Lemma round_pos_error x :
  0 < x ->
  x - pow2 (mag x - prec) <= round_pos x /\ round_pos x <= x + pow2 (mag x - prec).
Proof.
  intros Hx. pose proof (round_pos_eq x) as E.
  set (e := (mag x - (prec - 1))%Z) in *.
  pose proof (rne_near (x * pow2 (- e))) as [N1 N2].
  pose proof (scale_back x e) as B.
  pose proof (pow2_pos e) as P.
  assert (Hh : pow2 (mag x - prec) * 2 == pow2 e).
  { change 2 with (pow2 1). rewrite <- pow2_add.
    replace (mag x - prec + 1)%Z with e by (unfold e; ring). reflexivity. }
  set (s := x * pow2 (- e)) in *. set (m := inject_Z (rne s)) in *.
  assert (L1 : (m - (1 # 2)) * pow2 e <= s * pow2 e)
    by (apply Qmult_le_compat_r; lra).
  assert (L2 : s * pow2 e <= (m + (1 # 2)) * pow2 e)
    by (apply Qmult_le_compat_r; lra).
  split; lra.
Qed.

(** Below [2^k] the absolute error is at most [2^(k-1-prec)]. *)
Lemma fl_error x k :
  0 <= x -> x < pow2 k ->
  x - pow2 (k - 1 - prec) <= fl x /\ fl x <= x + pow2 (k - 1 - prec).
Proof.
  intros H0 Hk. pose proof (pow2_pos (k - 1 - prec)) as P.
  destruct (fl_cases x) as [[Hx Ex] | [[Hx Ex] | [Hx Ex]]]; rewrite Ex.
  - exfalso; lra.
  - split; lra.
  - destruct (round_pos_error x Hx) as [E1 E2].
    destruct (mag_spec x Hx) as [M1 _].
    assert (mag x < k)%Z by (apply pow2_lt_inv; lra).
    assert (pow2 (mag x - prec) <= pow2 (k - 1 - prec)) by (apply pow2_le; lia).
    split; lra.
Qed.

(** A rational within half a unit in the last place below a point of the
    float grid rounds up to it. *)
Lemma round_pos_nearby x K :
  0 < x ->
  x <= inject_Z K * pow2 (mag x - (prec - 1)) ->
  inject_Z K * pow2 (mag x - (prec - 1)) - x < pow2 (mag x - prec) ->
  round_pos x == inject_Z K * pow2 (mag x - (prec - 1)).
Proof.
  intros Hx Hle Hnear. rewrite round_pos_eq.
  set (e := (mag x - (prec - 1))%Z) in *.
  pose proof (pow2_pos e) as P. pose proof (pow2_pos (- e)) as P'.
  pose proof (pow2_cancel e) as C.
  assert (Hh : pow2 (mag x - prec) == (1 # 2) * pow2 e).
  { assert (T : pow2 (mag x - prec) * 2 == pow2 e).
    { change 2 with (pow2 1). rewrite <- pow2_add.
      replace (mag x - prec + 1)%Z with e by (unfold e; ring). reflexivity. }
    lra. }
  set (s := x * pow2 (- e)).
  assert (S1 : s <= inject_Z K).
  { assert (T : x * pow2 (- e) <= inject_Z K * pow2 e * pow2 (- e))
      by (apply Qmult_le_compat_r; lra).
    rewrite <- Qmult_assoc, C, Qmult_1_r in T. exact T. }
  assert (S2 : inject_Z K - (1 # 2) < s).
  { assert (T : (inject_Z K * pow2 e - (1 # 2) * pow2 e) * pow2 (- e)
                < x * pow2 (- e))
      by (apply Qmult_lt_compat_r; lra).
    assert (T' : (inject_Z K * pow2 e - (1 # 2) * pow2 e) * pow2 (- e)
                 == (inject_Z K - (1 # 2)) * (pow2 e * pow2 (- e))) by ring.
    rewrite T', C, Qmult_1_r in T. exact T. }
  assert (R : rne s = K).
  { pose proof (rne_near s) as [N1 N2].
    pose proof (rne_mono _ _ S1) as M. rewrite (rne_int (inject_Z K) K) in M
      by reflexivity.
    assert (L : inject_Z (K + -1) < inject_Z (rne s)).
    { rewrite inject_Z_plus. change (inject_Z (-1)) with (-1). lra. }
    rewrite <- Zlt_Qlt in L. lia. }
  rewrite R. reflexivity.
Qed.

(** *** Truncation to an integer *)

Lemma to_int_nonneg x : 0 <= x -> to_int x = Qfloor x.
Proof.
  destruct x as [n d]. intros H. unfold to_int, Qfloor. cbn [Qnum Qden].
  apply Z.quot_div_nonneg; [| reflexivity].
  unfold Qle in H. simpl in H. lia.
Qed.

Lemma Qfloor_between x q : inject_Z q <= x -> x < inject_Z q + 1 -> Qfloor x = q.
Proof.
  intros L U.
  pose proof (Qfloor_resp_le _ _ L) as A. rewrite Qfloor_Z in A.
  pose proof (Qfloor_le x) as B.
  assert (C : inject_Z (Qfloor x) < inject_Z (q + 1)).
  { rewrite inject_Z_plus. change (inject_Z 1) with 1. lra. }
  rewrite <- Zlt_Qlt in C. lia.
Qed.

Lemma to_int_between x q :
  (0 <= q)%Z -> inject_Z q <= x -> x < inject_Z q + 1 -> to_int x = q.
Proof.
  intros Hq L U. rewrite to_int_nonneg.
  - apply Qfloor_between; assumption.
  - assert (0 <= inject_Z q) by (change 0 with (inject_Z 0); rewrite <- Zle_Qle; lia).
    lra.
Qed.

Lemma to_int_bounds x :
  0 <= x -> inject_Z (to_int x) <= x /\ x < inject_Z (to_int x) + 1 /\ (0 <= to_int x)%Z.
Proof.
  intros H. rewrite to_int_nonneg by exact H.
  pose proof (Qfloor_le x) as L. pose proof (Qlt_floor x) as U.
  rewrite inject_Z_plus in U. change (inject_Z 1) with 1 in U.
  repeat split; try lra.
  pose proof (Qfloor_resp_le _ _ H) as F. exact F.
Qed.

Lemma gtb_true a b : gtb a b = true <-> b < a.
Proof.
  unfold gtb. rewrite negb_true_iff.
  split; intros H.
  - apply Qnot_le_lt. intros C. apply Qle_bool_iff in C. congruence.
  - destruct (Qle_bool a b) eqn:E; [| reflexivity].
    apply Qle_bool_iff in E. exfalso. lra.
Qed.

Lemma gtb_false a b : gtb a b = false <-> a <= b.
Proof.
  unfold gtb. rewrite negb_false_iff. apply Qle_bool_iff.
Qed.

End Binary64Facts.

(* ================================================================== *)
(** * Part III: the claims *)
(* ================================================================== *)

Local Open Scope Z_scope.

(** ** Constants *)

Lemma init_eq : init = mkProcessor 35 45 300 413 531 1800 1200.
Proof. vm_compute. reflexivity. Qed.

Lemma default_aspect_ratio_eq :
  default_aspect_ratio = (7005599420354105 # 9007199254740992)%Q.
Proof. vm_compute. reflexivity. Qed.

(** The rounding model agrees with the primitive binary64 operations on
    the constants and on the values of the scenario.  The hexadecimal
    literals are the doubles nearest to 1.3, 0.7, 0.3, 0.95 and 25.4. *)
Module HardwareCheck.
Import Binary64.

Example aspect_ratio_hw :
  prim_value (413 / 531)%float = Some default_aspect_ratio.
Proof. vm_compute. reflexivity. Qed.

Example literals_hw :
  prim_value 0x1.4cccccccccccdp+0%float = Some (literal 13 10) /\
  prim_value 0x1.6666666666666p-1%float = Some (literal 70 100) /\
  prim_value 0x1.3333333333333p-2%float = Some (literal 3 10) /\
  prim_value 0x1.e666666666666p-1%float = Some (literal 95 100) /\
  prim_value 0x1.9666666666666p+4%float = Some (literal 254 10).
Proof. vm_compute. repeat split; reflexivity. Qed.

Example scenario_hw :
  let h := 250%float in
  let head := (h * 0x1.4cccccccccccdp+0)%float in
  let ph := (head / 0x1.6666666666666p-1)%float in
  let pw := (ph * (413 / 531))%float in
  let offset := (h * 0x1.3333333333333p-2)%float in
  prim_value head = Some (estimated_head_height scenario_frame) /\
  prim_value ph = Some (photo_height scenario_frame) /\
  prim_value pw = Some (photo_width scenario_frame) /\
  prim_value (425 - offset)%float = Some (crop_center_y scenario_frame) /\
  prim_value ((425 - offset) - ph / 2)%float = Some (crop_y0 scenario_frame) /\
  prim_value (500 - pw / 2)%float = Some (crop_x0 scenario_frame).
Proof. vm_compute. repeat split; reflexivity. Qed.

Example target_pixels_hw :
  prim_value (35 / 0x1.9666666666666p+4 * 300)%float
    = Some (fmul (fdiv (of_int 35) (literal 254 10)) (of_int 300)) /\
  prim_value (45 / 0x1.9666666666666p+4 * 300)%float
    = Some (fmul (fdiv (of_int 45) (literal 254 10)) (of_int 300)).
Proof. vm_compute. split; reflexivity. Qed.

(** The same agreement for every face height and every image side from 1
    to 2000 pixels. *)
Example face_sizes_hw :
  forallb hardware_agrees_on_face (map Z.of_nat (seq 1 2000)) = true.
Proof. vm_compute. reflexivity. Qed.

Example center_sides_hw :
  forallb hardware_agrees_on_side (map Z.of_nat (seq 1 2000)) = true.
Proof. vm_compute. reflexivity. Qed.

End HardwareCheck.

(** ** The centre fallback of [crop_and_resize] *)

Section CenterFallback.
Import Binary64 Binary64Facts.
Local Open Scope Q_scope.

Lemma is_float_compat x y : x == y -> is_float x -> is_float y.
Proof. unfold is_float. intros E F. rewrite <- E. exact F. Qed.

Lemma is_float_aspect : is_float default_aspect_ratio.
Proof. unfold default_aspect_ratio, int_truediv. apply is_float_fl. Qed.

(** The float just above the aspect ratio. *)
Lemma is_float_aspect_succ : is_float (7005599420354106 # 9007199254740992).
Proof.
  apply (is_float_compat (inject_Z 7005599420354106 * pow2 (-53))).
  - vm_compute. reflexivity.
  - apply is_float_dyadic. vm_compute. reflexivity.
Qed.

Lemma inject_Z_lt_pow31 n : (n < 2 ^ 31)%Z -> inject_Z n < 2147483648.
Proof.
  intros H. change 2147483648 with (inject_Z (2 ^ 31)). rewrite <- Zlt_Qlt. exact H.
Qed.

Lemma inject_Z_pos n : (0 < n)%Z -> 0 < inject_Z n.
Proof. intros H. change 0 with (inject_Z 0). rewrite <- Zlt_Qlt. exact H. Qed.

Lemma inject_Z_nonneg n : (0 <= n)%Z -> 0 <= inject_Z n.
Proof. intros H. change 0 with (inject_Z 0). rewrite <- Zle_Qle. exact H. Qed.

Lemma is_float_small_int n : (0 <= n < 2 ^ 33)%Z -> is_float (inject_Z n).
Proof.
  intros H. apply is_float_int.
  assert (2 ^ 33 < 2 ^ prec)%Z by (vm_compute; reflexivity). lia.
Qed.

Lemma of_int_small n : (0 <= n < 2 ^ 33)%Z -> of_int n == inject_Z n.
Proof. intros H. apply is_float_small_int, H. Qed.

(** The test [width / height > target_aspect_ratio] decides exactly whether
    [W/H > 413/531]. *)
Lemma wide_test W H :
  (0 < H < 2 ^ 31)%Z -> (0 < W)%Z -> (413 * H < 531 * W)%Z ->
  gtb (int_truediv W H) default_aspect_ratio = true.
Proof.
  intros [H0 H1] W0 Hw. apply gtb_true. rewrite default_aspect_ratio_eq.
  pose proof (inject_Z_pos H H0) as Hq. pose proof (inject_Z_lt_pow31 H H1) as Hb.
  assert (Z9 : (7 * H + 1 <= 9 * W)%Z) by lia.
  rewrite Zle_Qle, inject_Z_plus, !inject_Z_mult in Z9.
  change (inject_Z 7) with 7 in Z9. change (inject_Z 9) with 9 in Z9.
  change (inject_Z 1) with 1 in Z9.
  apply Qlt_le_trans with (7005599420354106 # 9007199254740992);
    [reflexivity |].
  unfold int_truediv. apply fl_ge_float; [apply is_float_aspect_succ |].
  apply Qle_shift_div_l; [exact Hq |]. lra.
Qed.

Lemma tall_test W H :
  (0 < H)%Z -> (0 < W)%Z -> (531 * W <= 413 * H)%Z ->
  gtb (int_truediv W H) default_aspect_ratio = false.
Proof.
  intros H0 W0 Hw. apply gtb_false.
  pose proof (inject_Z_pos H H0) as Hq.
  assert (Z9 : (9 * W <= 7 * H)%Z) by lia.
  rewrite Zle_Qle, !inject_Z_mult in Z9.
  change (inject_Z 7) with 7 in Z9. change (inject_Z 9) with 9 in Z9.
  unfold int_truediv. apply fl_le_float; [apply is_float_aspect |].
  rewrite default_aspect_ratio_eq.
  apply Qle_shift_div_r; [exact Hq |]. lra.
Qed.

(** [int(height * target_aspect_ratio)] is the integer part of
    [H * 413/531]. *)
Lemma wide_new_width H :
  (0 < H < 2 ^ 31)%Z ->
  to_int (fmul (of_int H) default_aspect_ratio) = (413 * H / 531)%Z.
Proof.
  intros [H0 H1]. set (q := (413 * H / 531)%Z).
  assert (Hq : (0 <= q /\ 9 * q <= 7 * H /\ 7 * H <= 9 * q + 8 /\ q < 2 ^ 31)%Z).
  { unfold q. pose proof (Z.mul_div_le (413 * H) 531 ltac:(lia)).
    pose proof (Z.mul_succ_div_gt (413 * H) 531 ltac:(lia)).
    pose proof (Z.div_pos (413 * H) 531 ltac:(lia) ltac:(lia)). lia. }
  destruct Hq as (Q0 & Q1 & Q2 & Q3).
  rewrite Zle_Qle, !inject_Z_mult in Q1.
  rewrite Zle_Qle, inject_Z_plus, !inject_Z_mult in Q2.
  change (inject_Z 7) with 7 in *. change (inject_Z 9) with 9 in *.
  change (inject_Z 8) with 8 in *.
  pose proof (inject_Z_pos H H0) as Hp. pose proof (inject_Z_lt_pow31 H H1) as Hb.
  pose proof (inject_Z_nonneg q Q0) as Qp.
  pose proof (of_int_small H ltac:(lia)) as EH.
  unfold fmul.
  assert (Ex : of_int H * default_aspect_ratio
               == inject_Z H * (7005599420354105 # 9007199254740992))
    by (rewrite EH, default_aspect_ratio_eq; reflexivity).
  set (x := of_int H * default_aspect_ratio) in *.
  apply to_int_between; [exact Q0 | |].
  - apply fl_ge_float; [apply is_float_small_int; lia | lra].
  - assert (B : x < pow2 31).
    { change (pow2 31) with (inject_Z (2 ^ 31)).
      change (inject_Z (2 ^ 31)) with 2147483648. lra. }
    destruct (fl_error x 31 ltac:(lra) B) as [_ U].
    change (pow2 (31 - 1 - prec)) with (1 # 8388608) in U. lra.
Qed.

(** [int(width / target_aspect_ratio)] is the integer part of
    [W * 531/413]. *)
Lemma tall_new_height W :
  (0 < W < 2 ^ 31)%Z ->
  to_int (fdiv (of_int W) default_aspect_ratio) = (531 * W / 413)%Z.
Proof.
  intros [W0 W1]. set (q := (531 * W / 413)%Z).
  assert (Hq : (0 < q /\ 7 * q <= 9 * W /\ 9 * W <= 7 * q + 6 /\ q < 2 ^ 32)%Z).
  { unfold q. pose proof (Z.mul_div_le (531 * W) 413 ltac:(lia)).
    pose proof (Z.mul_succ_div_gt (531 * W) 413 ltac:(lia)).
    assert (1 <= 531 * W / 413)%Z by (apply Z.div_le_lower_bound; lia). lia. }
  destruct Hq as (Q0 & Q1 & Q2 & Q3).
  pose proof (inject_Z_pos W W0) as Wp. pose proof (inject_Z_lt_pow31 W W1) as Wb.
  pose proof (inject_Z_pos q Q0) as Qp.
  pose proof (of_int_small W ltac:(lia)) as EW.
  unfold fdiv.
  set (c := 7005599420354105 # 9007199254740992).
  assert (Ex : of_int W / default_aspect_ratio * c == inject_Z W).
  { rewrite EW, default_aspect_ratio_eq. fold c. field. discriminate. }
  set (x := of_int W / default_aspect_ratio) in *. unfold c in Ex.
  assert (Q1q := Q1). assert (Q2q := Q2).
  rewrite Zle_Qle, !inject_Z_mult in Q1q.
  rewrite Zle_Qle, inject_Z_plus, !inject_Z_mult in Q2q.
  change (inject_Z 7) with 7 in *. change (inject_Z 9) with 9 in *.
  change (inject_Z 6) with 6 in *.
  assert (Xp : 0 < x) by lra.
  assert (B : x < pow2 32).
  { change (pow2 32) with (inject_Z (2 ^ 32)).
    change (inject_Z (2 ^ 32)) with 4294967296. lra. }
  apply to_int_between; [lia | |].
  - destruct (Z.eq_dec (9 * W) (7 * q)) as [Exact | Inexact].
    + (* 7 divides W: the quotient lies just below the integer q *)
      rewrite fl_pos by exact Xp.
      destruct (mag_spec x Xp) as [M1 M2].
      assert (Hm : (mag x < 32)%Z) by (apply pow2_lt_inv; lra).
      set (e := (mag x - (prec - 1))%Z).
      assert (He : (0 <= - e)%Z) by (unfold e, prec; lia).
      assert (EK : inject_Z (q * 2 ^ (- e)) * pow2 e == inject_Z q).
      { rewrite inject_Z_mult, <- pow2_Z by exact He.
        rewrite <- Qmult_assoc, (Qmult_comm (pow2 (- e))), pow2_cancel. ring. }
      assert (P2 : pow2 (mag x + 1) == pow2 (mag x - prec) * 18014398509481984).
      { change 18014398509481984 with (pow2 (prec + 1)). rewrite <- pow2_add.
        replace (mag x - prec + (prec + 1))%Z with (mag x + 1)%Z by ring.
        reflexivity. }
      assert (Eq : 9 * inject_Z W == 7 * inject_Z q).
      { change 9 with (inject_Z 9). change 7 with (inject_Z 7).
        rewrite <- !inject_Z_mult. rewrite Exact. reflexivity. }
      rewrite (round_pos_nearby x (q * 2 ^ (- e))).
      * fold e. rewrite EK. lra.
      * exact Xp.
      * fold e. rewrite EK. lra.
      * fold e. rewrite EK. lra.
    + assert (Z1 : (7 * q + 1 <= 9 * W)%Z) by lia.
      rewrite Zle_Qle, inject_Z_plus, !inject_Z_mult in Z1.
      change (inject_Z 7) with 7 in *. change (inject_Z 9) with 9 in *.
      change (inject_Z 1) with 1 in *.
      assert (Qb : inject_Z q < 4294967296).
      { change 4294967296 with (inject_Z (2 ^ 32)). rewrite <- Zlt_Qlt. exact Q3. }
      apply fl_ge_float; [apply is_float_small_int; lia | lra].
  - destruct (fl_error x 32 ltac:(lra) B) as [_ U].
    change (pow2 (32 - 1 - prec)) with (1 # 4194304) in U. lra.
Qed.

End CenterFallback.

Section CenterRegion.
Import Binary64 Binary64Facts.

Lemma crop_box_center W H :
  H <> 0 ->
  crop_box init W H None =
  if gtb (int_truediv W H) default_aspect_ratio
  then
    let new_width := to_int (fmul (of_int H) default_aspect_ratio) in
    Ok ((W - new_width) / 2, 0, (W - new_width) / 2 + new_width, H)
  else
    let new_height := to_int (fdiv (of_int W) default_aspect_ratio) in
    Ok (0, (H - new_height) / 4, W, (H - new_height) / 4 + new_height).
Proof.
  intros HH. unfold crop_box. rewrite init_eq.
  cbn [target_width_px target_height_px].
  change (truediv 413 531) with (Ok default_aspect_ratio). cbn [bind].
  unfold truediv. destruct (Z.eqb_spec H 0) as [E | _]; [contradiction |].
  cbn [bind]. destruct (gtb _ _); [reflexivity |].
  unfold float_truediv.
  change (Qeq_bool default_aspect_ratio 0) with false. reflexivity.
Qed.

(** The centre crop in closed form, on integers. *)
Lemma crop_box_center_wide W H :
  0 < W -> 0 < H < 2 ^ 31 -> 413 * H < 531 * W ->
  crop_box init W H None =
  Ok ((W - 413 * H / 531) / 2, 0, (W - 413 * H / 531) / 2 + 413 * H / 531, H).
Proof.
  intros W0 HH Hw. rewrite crop_box_center by lia.
  rewrite (wide_test W H HH W0 Hw). cbv zeta.
  rewrite (wide_new_width H HH). reflexivity.
Qed.

Lemma crop_box_center_tall W H :
  0 < W < 2 ^ 31 -> 0 < H -> 531 * W <= 413 * H ->
  crop_box init W H None =
  Ok (0, (H - 531 * W / 413) / 4, W, (H - 531 * W / 413) / 4 + 531 * W / 413).
Proof.
  intros WW H0 Hw. rewrite crop_box_center by lia.
  rewrite (tall_test W H H0 ltac:(lia) Hw). cbv zeta.
  rewrite (tall_new_height W WW). reflexivity.
Qed.

(** Integer parts of exact rational products and quotients. *)
Lemma Qfloor_mul_ratio a b c :
  0 < c -> Qfloor (inject_Z a * (inject_Z b / inject_Z c)) = b * a / c.
Proof.
  intros Hc. rewrite (Zdiv_Qdiv (b * a) c). apply Qfloor_comp.
  rewrite inject_Z_mult. field.
  intros E. apply (inject_Z_injective c 0) in E. lia.
Qed.

Lemma Qfloor_div_ratio a b c :
  0 < b -> 0 < c -> Qfloor (inject_Z a / (inject_Z b / inject_Z c)) = c * a / b.
Proof.
  intros Hb Hc. rewrite (Zdiv_Qdiv (c * a) b). apply Qfloor_comp.
  rewrite inject_Z_mult. field.
  split; intros E.
  - apply (inject_Z_injective b 0) in E. lia.
  - apply (inject_Z_injective c 0) in E. lia.
Qed.

(** The 1% test, on rationals and on integers. *)
Lemma aspect_within_1pct_Q (b : Box) :
  (0 < inject_Z (box_height b))%Q ->
  (40887 * inject_Z (box_height b) <= 53100 * inject_Z (box_width b))%Q ->
  (53100 * inject_Z (box_width b) <= 41713 * inject_Z (box_height b))%Q ->
  aspect_within_1pct init b.
Proof.
  intros Hq L U. unfold aspect_within_1pct, target_ratio. rewrite init_eq.
  cbn [target_width_px target_height_px].
  set (w := box_width b) in *. set (h := box_height b) in *.
  assert (A1 : ((40887 # 53100) <= inject_Z w / inject_Z h)%Q)
    by (apply Qle_shift_div_l; [exact Hq | lra]).
  assert (A2 : (inject_Z w / inject_Z h <= 41713 # 53100)%Q)
    by (apply Qle_shift_div_r; [exact Hq | lra]).
  change (inject_Z 413 / inject_Z 531)%Q with (413 # 531).
  apply Qabs_Qle_condition. split; lra.
Qed.

Lemma aspect_within_1pct_intro (b : Box) :
  0 < box_height b ->
  100 * Z.abs (531 * box_width b - 413 * box_height b) <= 413 * box_height b ->
  aspect_within_1pct init b.
Proof.
  intros Hh Hz.
  set (w := box_width b) in *. set (h := box_height b) in *.
  assert (U : 53100 * w <= 41713 * h) by lia.
  assert (L : 40887 * h <= 53100 * w) by lia.
  rewrite Zle_Qle, !inject_Z_mult in U, L.
  apply aspect_within_1pct_Q; fold w; fold h;
    [change 0%Q with (inject_Z 0); rewrite <- Zlt_Qlt; exact Hh | exact L | exact U].
Qed.

End CenterRegion.

(** ** C6 *)

(** C6.  In centre-fallback mode, on an image of [W x H] pixels
    (0 < W, H < 2^31): if the source is relatively wider than the target
    ([W/H > 413/531]) the crop is [H * aspect_ratio] pixels wide (its
    integer part), horizontally centred (left offset [(W - width) / 2] in
    whole pixels, so the two side margins differ by at most one pixel) and
    keeps the full height; otherwise the crop keeps the full width, is
    [W / aspect_ratio] pixels high (its integer part) and starts
    [(H - cropped_height) / 4] pixels from the top. *)
Theorem center_fallback_regions :
  forall W H : Z,
    0 < W < 2 ^ 31 -> 0 < H < 2 ^ 31 ->
    exists x0 y0 x1 y1,
      crop_box init W H None = Ok (x0, y0, x1, y1) /\
      ((inject_Z W / inject_Z H > target_ratio init)%Q ->
         x1 - x0 = Qfloor (inject_Z H * target_ratio init) /\
         x0 = (W - (x1 - x0)) / 2 /\
         0 <= (W - x1) - x0 <= 1 /\
         y0 = 0 /\ y1 = H) /\
      (~ (inject_Z W / inject_Z H > target_ratio init)%Q ->
         y1 - y0 = Qfloor (inject_Z W / target_ratio init) /\
         y0 = (H - (y1 - y0)) / 4 /\
         x0 = 0 /\ x1 = W).
Proof.
  intros W H HW HH.
  assert (Hq : (0 < inject_Z H)%Q)
    by (change 0%Q with (inject_Z 0); rewrite <- Zlt_Qlt; lia).
  assert (T : target_ratio init = (inject_Z 413 / inject_Z 531)%Q)
    by (unfold target_ratio; rewrite init_eq; reflexivity).
  assert (Cmp : (inject_Z W / inject_Z H > target_ratio init)%Q <-> 413 * H < 531 * W).
  { rewrite T. change (inject_Z 413 / inject_Z 531)%Q with (413 # 531).
    assert (E : (inject_Z W / inject_Z H * inject_Z H == inject_Z W)%Q)
      by (field; lra).
    rewrite Zlt_Qlt, !inject_Z_mult.
    change (inject_Z 413) with 413%Q. change (inject_Z 531) with 531%Q.
    split; intros C.
    - pose proof (Qmult_lt_compat_r _ _ _ Hq C) as M. rewrite E in M. lra.
    - apply Qlt_shift_div_l; [exact Hq | lra]. }
  destruct (Z_lt_le_dec (413 * H) (531 * W)) as [Wide | Tall].
  - do 4 eexists. split; [apply crop_box_center_wide; lia |].
    split; [| intros C; exfalso; apply C, Cmp, Wide].
    intros _. rewrite T, Qfloor_mul_ratio by lia.
    set (nw := 413 * H / 531).
    replace ((W - nw) / 2 + nw - (W - nw) / 2) with nw by ring.
    repeat split; try reflexivity;
      pose proof (Z.div_mod (W - nw) 2 ltac:(lia));
      pose proof (Z.mod_pos_bound (W - nw) 2 ltac:(lia)); lia.
  - do 4 eexists. split; [apply crop_box_center_tall; lia |].
    split; [intros C; apply Cmp in C; lia |].
    intros _. rewrite T, Qfloor_div_ratio by lia.
    set (nh := 531 * W / 413).
    replace ((H - nh) / 4 + nh - (H - nh) / 4) with nh by ring.
    repeat split; reflexivity.
Qed.

(** The scenario of the specification: 2000x1000, wider than the target. *)
Lemma center_fallback_regions_2000x1000 :
  exists x0 y0 x1 y1,
    crop_box init 2000 1000 None = Ok (x0, y0, x1, y1) /\
    x1 - x0 = Qfloor (inject_Z 1000 * target_ratio init) /\
    x0 = (2000 - (x1 - x0)) / 2 /\
    0 <= (2000 - x1) - x0 <= 1 /\
    y0 = 0 /\ y1 = 1000.
Proof.
  destruct (center_fallback_regions 2000 1000) as (x0 & y0 & x1 & y1 & E & Wd & _);
    [lia | lia |].
  exists x0, y0, x1, y1. split; [exact E |].
  apply Wd. vm_compute. reflexivity.
Defined.

Example center_crop_2000x1000 : crop_box init 2000 1000 None = Ok (611, 0, 1388, 1000).
Proof. vm_compute. reflexivity. Qed.

Example center_crop_1000x2000 : crop_box init 1000 2000 None = Ok (0, 178, 1000, 1463).
Proof. vm_compute. reflexivity. Qed.

(** ** C4 *)

(** C4, as stated, fails for small images: a 50x50 source is cropped to
    38x50, a ratio of 0.76 against 0.7778. *)
Lemma center_crop_50x50_off_ratio :
  crop_box init 50 50 None = Ok (6, 0, 44, 50) /\
  inside (6, 0, 44, 50) 50 50 /\
  ~ aspect_within_1pct init (6, 0, 44, 50).
Proof.
  split; [vm_compute; reflexivity |].
  split; [cbn; lia |].
  unfold aspect_within_1pct. intros A.
  apply Qle_bool_iff in A. vm_compute in A. discriminate A.
Qed.

(** C4 (amended).  With no face box, for every source of [W x H] pixels
    (0 < W, H < 2^31) the centre-fallback branch returns a crop region fully
    inside [[0,W] x [0,H]]; its width/height ratio is within 1% of
    [target_width_px / target_height_px] whenever the source is at least 67
    pixels wide and 115 pixels high. *)
Theorem center_fallback_inside :
  forall W H : Z,
    0 < W < 2 ^ 31 -> 0 < H < 2 ^ 31 ->
    exists box,
      crop_box init W H None = Ok box /\
      inside box W H /\
      (67 <= W -> 115 <= H -> aspect_within_1pct init box).
Proof.
  intros W H HW HH.
  destruct (Z_lt_le_dec (413 * H) (531 * W)) as [Wide | Tall].
  - eexists. split; [apply crop_box_center_wide; lia |].
    set (nw := 413 * H / 531).
    assert (Hn : 0 <= nw /\ 9 * nw <= 7 * H /\ 7 * H < 9 * nw + 9).
    { assert (E : nw = 7 * H / 9).
      { unfold nw. replace (413 * H) with (59 * (7 * H)) by ring.
        change 531 with (59 * 9). apply Z.div_mul_cancel_l; lia. }
      rewrite E. pose proof (Z.mul_div_le (7 * H) 9 ltac:(lia)).
      pose proof (Z.mul_succ_div_gt (7 * H) 9 ltac:(lia)).
      pose proof (Z.div_pos (7 * H) 9 ltac:(lia) ltac:(lia)). lia. }
    pose proof (Z.div_mod (W - nw) 2 ltac:(lia)).
    pose proof (Z.mod_pos_bound (W - nw) 2 ltac:(lia)).
    split; [cbn; lia |].
    intros _ H115. apply aspect_within_1pct_intro; unfold box_width, box_height; lia.
  - eexists. split; [apply crop_box_center_tall; lia |].
    set (nh := 531 * W / 413).
    assert (Hn : 0 < nh /\ 7 * nh <= 9 * W /\ 9 * W < 7 * nh + 7).
    { assert (E : nh = 9 * W / 7).
      { unfold nh. replace (531 * W) with (59 * (9 * W)) by ring.
        change 413 with (59 * 7). apply Z.div_mul_cancel_l; lia. }
      rewrite E. pose proof (Z.mul_div_le (9 * W) 7 ltac:(lia)).
      pose proof (Z.mul_succ_div_gt (9 * W) 7 ltac:(lia)).
      assert (1 <= 9 * W / 7) by (apply Z.div_le_lower_bound; lia). lia. }
    pose proof (Z.div_mod (H - nh) 4 ltac:(lia)).
    pose proof (Z.mod_pos_bound (H - nh) 4 ltac:(lia)).
    split; [cbn; lia |].
    intros W67 _. apply aspect_within_1pct_intro; unfold box_width, box_height; lia.
Qed.

Lemma center_fallback_inside_2000x1000 :
  exists box,
    crop_box init 2000 1000 None = Ok box /\
    inside box 2000 1000 /\
    aspect_within_1pct init box.
Proof.
  destruct (center_fallback_inside 2000 1000) as (box & E & I & A); [lia | lia |].
  exists box. split; [exact E | split; [exact I | apply A; lia]].
Defined.

(** ** The face-anchored branch of [crop_and_resize] *)

Section FaceRegion.
Import Binary64 Binary64Facts.
Local Open Scope Q_scope.

Lemma ltb_true a b : ltb a b = true <-> a < b.
Proof. apply (gtb_true b a). Qed.

Lemma ltb_false a b : ltb a b = false <-> b <= a.
Proof. apply (gtb_false b a). Qed.

(** The boundary clamp [max(0, min(c0, D))] for a non-negative bound. *)
Lemma clamp_bounds c0 D :
  0 <= D ->
  let c := py_max 0 (py_min c0 D) in
  0 <= c /\ c <= D /\ (c = 0 \/ c = c0 \/ c = D).
Proof.
  intros HD. unfold py_max, py_min.
  destruct (ltb D c0) eqn:L.
  - destruct (gtb D 0) eqn:G.
    + repeat split; [exact HD | lra | auto].
    + repeat split; [lra | exact HD | auto].
  - apply ltb_false in L. destruct (gtb c0 0) eqn:G.
    + apply gtb_true in G. repeat split; [lra | exact L | auto].
    + repeat split; [lra | exact HD | auto].
Qed.

Lemma is_float_zero : is_float 0.
Proof. reflexivity. Qed.

(** One axis of the crop: the clamped origin [c] and the extent [p] give
    pixel coordinates inside [[0, N]] whose distance is within about one
    pixel of [p]. *)
Lemma clamped_axis (c0 p : Q) (N : Z) :
  (0 < N < 2 ^ 31)%Z ->
  is_float c0 -> 0 <= p -> p <= inject_Z N ->
  let c := py_max 0 (py_min c0 (fsub (of_int N) p)) in
  let lo := to_int c in
  let hi := to_int (fadd c p) in
  (0 <= lo)%Z /\ (lo <= hi)%Z /\ (hi <= N)%Z /\
  p - (4194305 # 4194304) < inject_Z (hi - lo) /\
  inject_Z (hi - lo) < p + (4194305 # 4194304).
Proof.
  intros [N0 N1] Fc0 Hp HpN.
  pose proof (inject_Z_lt_pow31 N N1) as Nb.
  pose proof (of_int_small N ltac:(lia)) as EN.
  assert (P31 : pow2 31 == 2147483648) by reflexivity.
  assert (P32 : pow2 32 == 4294967296) by reflexivity.
  (* the upper bound of the clamp *)
  set (D := fsub (of_int N) p).
  assert (HD : 0 <= D /\ D <= inject_Z N - p + (1 # 8388608)).
  { unfold D, fsub.
    assert (R : 0 <= of_int N - p /\ of_int N - p < pow2 31) by (split; lra).
    destruct R as [R0 R1]. destruct (fl_error _ 31 R0 R1) as [_ U].
    change (pow2 (31 - 1 - prec)) with (1 # 8388608) in U.
    split; [apply fl_nonneg; exact R0 | lra]. }
  destruct HD as [D0 D1].
  destruct (clamp_bounds c0 D D0) as (C0 & C1 & Cc).
  intros c lo hi. fold D in c. fold c in C0, C1, Cc.
  assert (Fc : is_float c).
  { destruct Cc as [E | [E | E]]; rewrite E;
      [apply is_float_zero | exact Fc0 | apply is_float_fl]. }
  (* the right end *)
  assert (HS : c <= fadd c p /\ c + p - (1 # 4194304) <= fadd c p /\
               fadd c p <= c + p + (1 # 4194304)).
  { unfold fadd.
    assert (R : 0 <= c + p /\ c + p < pow2 32) by (split; lra).
    destruct R as [R0 R1]. destruct (fl_error _ 32 R0 R1) as [L U].
    change (pow2 (32 - 1 - prec)) with (1 # 4194304) in L, U.
    repeat split; [apply fl_ge_float; [exact Fc | lra] | lra | lra]. }
  destruct HS as (S0 & S1 & S2).
  destruct (to_int_bounds c C0) as (Lc & Uc & Zc).
  destruct (to_int_bounds (fadd c p) ltac:(lra)) as (Ls & Us & Zs).
  fold lo in Lc, Uc, Zc. fold hi in Ls, Us, Zs.
  assert (Mono : (lo <= hi)%Z).
  { unfold lo, hi. rewrite !to_int_nonneg by lra. apply Qfloor_resp_le, S0. }
  assert (Top : (hi <= N)%Z).
  { assert (T : inject_Z hi < inject_Z (N + 1)).
    { rewrite inject_Z_plus. change (inject_Z 1) with 1. lra. }
    rewrite <- Zlt_Qlt in T. lia. }
  assert (Diff : inject_Z (hi - lo) == inject_Z hi - inject_Z lo).
  { unfold Z.sub. rewrite inject_Z_plus, inject_Z_opp. ring. }
  repeat split; try assumption; rewrite Diff; lra.
Qed.

Lemma literal_13_10 : literal 13 10 = (5854679515581645 # 4503599627370496).
Proof. vm_compute. reflexivity. Qed.

Lemma literal_70_100 : literal 70 100 = (3152519739159347 # 4503599627370496).
Proof. vm_compute. reflexivity. Qed.

Lemma photo_height_nonneg h : (0 < h < 2 ^ 31)%Z -> 0 <= photo_height_of h.
Proof.
  intros [h0 h1]. unfold photo_height_of, fdiv, fmul.
  pose proof (of_int_small h ltac:(lia)) as Eh.
  pose proof (inject_Z_pos h h0) as Hp.
  assert (A : 0 <= fl (of_int h * literal 13 10)).
  { apply fl_nonneg. rewrite Eh, literal_13_10. lra. }
  apply fl_nonneg. rewrite literal_70_100.
  apply Qle_shift_div_l; [reflexivity | lra].
Qed.

(** A face of 124 pixels or more asks for a photo of more than 230. *)
Lemma photo_height_large h :
  (124 <= h < 2 ^ 31)%Z -> (1841 # 8) <= photo_height_of h.
Proof.
  intros [h0 h1]. unfold photo_height_of, fdiv, fmul.
  pose proof (of_int_small h ltac:(lia)) as Eh.
  assert (Hq : 124 <= inject_Z h)
    by (change 124 with (inject_Z 124); rewrite <- Zle_Qle; exact h0).
  assert (A : (1289 # 8) <= fl (of_int h * literal 13 10)).
  { apply fl_ge_float.
    - apply (is_float_compat (inject_Z 1289 * pow2 (-3)));
        [reflexivity | apply is_float_dyadic; vm_compute; reflexivity].
    - rewrite Eh, literal_13_10. lra. }
  apply fl_ge_float.
  - apply (is_float_compat (inject_Z 1841 * pow2 (-3)));
      [reflexivity | apply is_float_dyadic; vm_compute; reflexivity].
  - rewrite literal_70_100. apply Qle_shift_div_l; [reflexivity | lra].
Qed.

Lemma photo_width_bounds h H :
  (0 < H < 2 ^ 31)%Z ->
  0 <= photo_height_of h -> photo_height_of h <= inject_Z H ->
  0 <= photo_width_of h /\
  9 * photo_width_of h <= 7 * photo_height_of h + (1 # 65536) /\
  7 * photo_height_of h - (1 # 65536) <= 9 * photo_width_of h.
Proof.
  intros [H0 H1] P0 P1. pose proof (inject_Z_lt_pow31 H H1) as Hb.
  unfold photo_width_of, fmul. set (ph := photo_height_of h) in *.
  assert (E : ph * default_aspect_ratio
              == ph * (7005599420354105 # 9007199254740992))
    by (rewrite default_aspect_ratio_eq; reflexivity).
  assert (R0 : 0 <= ph * default_aspect_ratio) by lra.
  assert (R1 : ph * default_aspect_ratio < pow2 31).
  { change (pow2 31) with (inject_Z (2 ^ 31)).
    change (inject_Z (2 ^ 31)) with 2147483648. lra. }
  destruct (fl_error _ 31 R0 R1) as [L U].
  change (pow2 (31 - 1 - prec)) with (1 # 8388608) in L, U.
  split; [apply fl_nonneg, R0 |]. split; lra.
Qed.

Lemma crop_box_face W H x y w h :
  let f := face_frame default_aspect_ratio W H (x, y, w, h) in
  too_large f W H = false ->
  crop_box init W H (Some (x, y, w, h)) =
  Ok (to_int (crop_x f), to_int (crop_y f),
      to_int (fadd (crop_x f) (photo_width f)),
      to_int (fadd (crop_y f) (photo_height f))).
Proof.
  intros f Hfit. unfold crop_box. rewrite init_eq.
  cbn [target_width_px target_height_px].
  change (truediv 413 531) with (Ok default_aspect_ratio). cbn [bind].
  fold f. rewrite Hfit. reflexivity.
Qed.

End FaceRegion.

(** ** C2 *)

(** C2, as stated, fails for small faces: on a 1000x1200 image the valid
    face box (400,300,40,40) fits without scaling and is cropped to 57x75
    pixels, a ratio of 0.76 against 0.7778. *)
Lemma face_crop_40_off_ratio :
  valid_face_box (400, 300, 40, 40) 1000 1200 /\
  crop_box init 1000 1200 (Some (400, 300, 40, 40)) = Ok (391, 270, 448, 345) /\
  inside (391, 270, 448, 345) 1000 1200 /\
  ~ aspect_within_1pct init (391, 270, 448, 345).
Proof.
  split; [cbn; lia |].
  split; [vm_compute; reflexivity |].
  split; [cbn; lia |].
  unfold aspect_within_1pct. intros A.
  apply Qle_bool_iff in A. vm_compute in A. discriminate A.
Qed.

(** C2 (amended).  For every source of [W x H] pixels (0 < W, H < 2^31) and
    every valid face box whose ideal crop fits the source (neither
    [photo_width > W] nor [photo_height > H]), the face-anchored branch
    returns a crop region fully inside [[0,W] x [0,H]]; its width/height
    ratio is within 1% of 413/531 whenever the face box is at least 124
    pixels high. *)
Theorem face_crop_inside :
  forall (W H x y w h : Z),
    0 < W < 2 ^ 31 -> 0 < H < 2 ^ 31 ->
    valid_face_box (x, y, w, h) W H ->
    too_large (face_frame default_aspect_ratio W H (x, y, w, h)) W H = false ->
    exists box,
      crop_box init W H (Some (x, y, w, h)) = Ok box /\
      inside box W H /\
      (124 <= h -> aspect_within_1pct init box).
Proof.
  intros W H x y w h HW HH Hvalid Hfit.
  destruct Hvalid as (x0 & y0 & w0 & h0 & xw & yh).
  assert (hb : 0 < h < 2 ^ 31) by lia.
  rewrite (crop_box_face W H x y w h Hfit). eexists. split; [reflexivity |].
  set (f := face_frame default_aspect_ratio W H (x, y, w, h)) in *.
  assert (Eh : photo_height f = photo_height_of h) by reflexivity.
  assert (Ew : photo_width f = photo_width_of h) by reflexivity.
  unfold too_large in Hfit. apply orb_false_iff in Hfit.
  destruct Hfit as [FitW FitH].
  apply Binary64Facts.gtb_false in FitW, FitH. rewrite Ew in FitW. rewrite Eh in FitH.
  pose proof (photo_height_nonneg h hb) as P0.
  destruct (photo_width_bounds h H HH P0 FitH) as (Q0 & R1 & R2).
  assert (Fx : Binary64.is_float (crop_x0 f)) by apply Binary64Facts.is_float_fl.
  assert (Fy : Binary64.is_float (crop_y0 f)) by apply Binary64Facts.is_float_fl.
  pose proof (clamped_axis (crop_x0 f) (photo_width_of h) W HW Fx Q0 FitW) as AX.
  pose proof (clamped_axis (crop_y0 f) (photo_height_of h) H HH Fy P0 FitH) as AY.
  cbv zeta in AX, AY.
  rewrite Eh, Ew.
  change (crop_x f)
    with (Binary64.py_max 0
            (Binary64.py_min (crop_x0 f)
               (Binary64.fsub (Binary64.of_int W) (photo_width_of h)))).
  change (crop_y f)
    with (Binary64.py_max 0
            (Binary64.py_min (crop_y0 f)
               (Binary64.fsub (Binary64.of_int H) (photo_height_of h)))).
  destruct AX as (X0 & X1 & X2 & X3 & X4).
  destruct AY as (Y0 & Y1 & Y2 & Y3 & Y4).
  split; [unfold inside; lia |].
  intros h124. pose proof (photo_height_large h ltac:(lia)) as PL.
  apply aspect_within_1pct_Q; unfold box_width, box_height; lra.
Qed.

(** The scenario of the specification. *)
Lemma face_crop_inside_scenario :
  exists box,
    crop_box init 1000 1200 (Some (400, 300, 200, 250)) = Ok box /\
    inside box 1000 1200 /\
    aspect_within_1pct init box.
Proof.
  destruct (face_crop_inside 1000 1200 400 300 200 250) as (box & E & I & A);
    [lia | lia | cbn; lia | vm_compute; reflexivity |].
  exists box. split; [exact E | split; [exact I | apply A; lia]].
Defined.

Example face_crop_scenario_box :
  crop_box init 1000 1200 (Some (400, 300, 200, 250)) = Ok (319, 117, 680, 582).
Proof. vm_compute. reflexivity. Qed.
(** ** Generic facts about the stages *)

Lemma crop_and_resize_size self image face_box out :
  crop_and_resize self image face_box = Ok out ->
  size out = (target_width_px self, target_height_px self).
Proof.
  unfold crop_and_resize. destruct (size image) as [width height].
  destruct (crop_box self width height face_box) as [box |]; [| discriminate].
  cbn [bind]. destruct (crop image box) as [cropped |]; [| discriminate].
  cbn [bind]. destruct (size cropped) as [cw ch].
  destruct (truediv cw ch); [| discriminate].
  cbn [bind]. unfold resize.
  destruct (_ || _); [discriminate |].
  intros E. injection E as <-. reflexivity.
Qed.

(** A non-empty crop rectangle is cropped and resampled without error. *)
Lemma crop_and_resize_ok image W H face_box x0 y0 x1 y1 :
  size image = (W, H) ->
  crop_box init W H face_box = Ok (x0, y0, x1, y1) ->
  x0 <= x1 -> y0 < y1 ->
  crop_and_resize init image face_box = Ok (mkImage (413, 531) []).
Proof.
  intros Hsize Hbox Hx Hy. unfold crop_and_resize. rewrite Hsize, Hbox.
  cbn [bind]. unfold crop.
  destruct (Z.ltb_spec x1 x0) as [C | _]; [lia |].
  destruct (Z.ltb_spec y1 y0) as [C | _]; [lia |].
  cbn [bind size]. unfold truediv.
  destruct (Z.eqb_spec (y1 - y0) 0) as [C | _]; [lia |].
  cbn [bind]. rewrite init_eq. reflexivity.
Qed.

(** One cell of the sheet: the outline is rejected exactly when a target
    side is below -2. *)
Lemma place_photo_eq self photo row col img :
  place_photo self photo row col img =
  let x := start_x self + col * cell_width self + photo_margin in
  let y := start_y self + row * cell_height self + photo_margin in
  if target_width_px self <? -2
  then Raise (ValueError "x1 must be greater than or equal to x0")
  else if target_height_px self <? -2
  then Raise (ValueError "y1 must be greater than or equal to y0")
  else Ok (mkImage (size img)
             (ops img ++
              [Paste (size photo) (x, y);
               Outline (x - border_thickness, y - border_thickness,
                        x + target_width_px self + border_thickness,
                        y + target_height_px self + border_thickness)
                       border_color border_thickness])).
Proof.
  unfold place_photo, draw_rectangle, paste, border_thickness. cbn [size ops].
  cbv zeta.
  set (x := start_x self + col * cell_width self + photo_margin).
  set (y := start_y self + row * cell_height self + photo_margin).
  replace (x + target_width_px self + 1 <? x - 1) with (target_width_px self <? -2)
    by (destruct (Z.ltb_spec (target_width_px self) (-2)),
                 (Z.ltb_spec (x + target_width_px self + 1) (x - 1)); lia || reflexivity).
  replace (y + target_height_px self + 1 <? y - 1) with (target_height_px self <? -2)
    by (destruct (Z.ltb_spec (target_height_px self) (-2)),
                 (Z.ltb_spec (y + target_height_px self + 1) (y - 1)); lia || reflexivity).
  rewrite <- app_assoc. reflexivity.
Qed.

(** The whole sheet: [create_4x6_print] raises exactly on a negative sheet
    side or a target side below -2, and otherwise returns the sheet with
    the six photos pasted and outlined row by row. *)
Lemma create_4x6_print_eq self photo :
  create_4x6_print self photo =
  if (print_width_px self <? 0) || (print_height_px self <? 0)
  then Raise (ValueError "Width and height must be >= 0")
  else if target_width_px self <? -2
  then Raise (ValueError "x1 must be greater than or equal to x0")
  else if target_height_px self <? -2
  then Raise (ValueError "y1 must be greater than or equal to y0")
  else
    Ok (mkImage (print_width_px self, print_height_px self)
          (flat_map
             (fun row =>
                flat_map
                  (fun col =>
                     let x := start_x self + col * cell_width self + photo_margin in
                     let y := start_y self + row * cell_height self + photo_margin in
                     [Paste (size photo) (x, y);
                      Outline (x - border_thickness, y - border_thickness,
                               x + target_width_px self + border_thickness,
                               y + target_height_px self + border_thickness)
                              border_color border_thickness])
                  (range photos_per_row))
             (range photos_per_col))).
Proof.
  unfold create_4x6_print, Image_new. cbn [fst snd].
  destruct (_ || _); [reflexivity |]. cbn [bind].
  change (range photos_per_row) with [0; 1; 2].
  change (range photos_per_col) with [0; 1].
  cbn [for_each bind].
  destruct (target_width_px self <? -2) eqn:Tw;
    [rewrite place_photo_eq, Tw; reflexivity |].
  destruct (target_height_px self <? -2) eqn:Th;
    [rewrite place_photo_eq, Tw, Th; reflexivity |].
  repeat (rewrite place_photo_eq, Tw, Th; cbv zeta; cbn [bind size ops app]).
  reflexivity.
Qed.

Lemma create_4x6_print_size self photo sheet :
  create_4x6_print self photo = Ok sheet ->
  size sheet = (print_width_px self, print_height_px self).
Proof.
  rewrite create_4x6_print_eq.
  destruct (_ || _); [discriminate |].
  destruct (_ <? _); [discriminate |].
  destruct (_ <? _); [discriminate |].
  intros E. injection E as <-. reflexivity.
Qed.

Lemma create_4x6_print_boxes self photo sheet :
  create_4x6_print self photo = Ok sheet ->
  pasted_boxes sheet =
  flat_map
    (fun row =>
       map (fun col =>
              let x := start_x self + col * cell_width self + photo_margin in
              let y := start_y self + row * cell_height self + photo_margin in
              (x, y, x + fst (size photo), y + snd (size photo)))
           (range photos_per_row))
    (range photos_per_col).
Proof.
  rewrite create_4x6_print_eq.
  destruct (_ || _); [discriminate |].
  destruct (_ <? _); [discriminate |].
  destruct (_ <? _); [discriminate |].
  intros E. injection E as <-. destruct photo as [[w h] o]. reflexivity.
Qed.

(** With the built-in constants no photo makes [create_4x6_print] raise. *)
Lemma create_4x6_print_init photo :
  exists sheet, create_4x6_print init photo = Ok sheet.
Proof.
  rewrite create_4x6_print_eq, init_eq. eexists. reflexivity.
Qed.

Lemma file_at_head fs path image : file_at ((path, image) :: fs) path = Some image.
Proof. cbn [file_at]. rewrite String.eqb_refl. reflexivity. Qed.

(** The white background keeps the size of a photo with non-negative
    sides. *)
Lemma add_white_background_size image out :
  add_white_background image = Ok out -> size out = size image.
Proof.
  unfold add_white_background, Image_new.
  destruct (_ || _); [discriminate |]. cbn [bind].
  intros E. injection E as <-. reflexivity.
Qed.

(** A run that succeeds without the print sheet has saved the primary
    photo, of the target size, and nothing else. *)
Lemma process_photo_primary self run fs output_path remove_bg :
  fst (process_photo self run fs output_path remove_bg false) = true ->
  exists primary,
    size primary = (target_width_px self, target_height_px self) /\
    writable run output_path = true /\
    process_photo self run fs output_path remove_bg false
    = (true, (output_path, primary) :: fs).
Proof.
  unfold process_photo.
  destruct (output_dir_ready run) as [[] |]; cbn [bind]; [| discriminate].
  destruct (opened run) as [image |]; cbn [bind]; [| discriminate].
  destruct (grayscale run) as [[] |]; cbn [bind]; [| discriminate].
  destruct (crop_and_resize self _ (detected run)) as [out |] eqn:C;
    cbn [bind]; [| discriminate].
  destruct (add_white_background out) as [white |] eqn:B;
    cbn [bind]; [| discriminate].
  unfold save. destruct (writable run output_path); [| discriminate].
  intros _. exists (enhance_image white). split; [| split; reflexivity].
  unfold enhance_image. rewrite (add_white_background_size _ _ B).
  apply (crop_and_resize_size _ _ _ _ C).
Qed.

(** The print stage comes after the primary photo is saved: the outcome
    with the print sheet requested is that of the run without it, followed
    by building the sheet and saving it. *)
Lemma process_photo_print_stage self run fs output_path remove_bg primary :
  process_photo self run fs output_path remove_bg false
  = (true, (output_path, primary) :: fs) ->
  process_photo self run fs output_path remove_bg true
  = match create_4x6_print self primary with
    | Raise _ => (false, (output_path, primary) :: fs)
    | Ok sheet =>
        let print_output_path := replace output_path ".jpg" "_4x6_print.jpg" in
        if writable run print_output_path
        then (true, (print_output_path, sheet) :: (output_path, primary) :: fs)
        else (false, (output_path, primary) :: fs)
    end.
Proof.
  unfold process_photo.
  destruct (_ <- output_dir_ready run ;; _) as [image |]; [| discriminate].
  unfold save. destruct (writable run output_path); [| discriminate].
  intros E. injection E as ->.
  destruct (create_4x6_print self primary) as [sheet |]; cbn [bind]; [| reflexivity].
  cbv zeta. destruct (writable run _); reflexivity.
Qed.

(** A run that succeeds with the print sheet requested has saved the primary
    photo and then the sheet. *)
Lemma process_photo_saves self run fs output_path remove_bg :
  fst (process_photo self run fs output_path remove_bg true) = true ->
  exists primary sheet,
    size primary = (target_width_px self, target_height_px self) /\
    create_4x6_print self primary = Ok sheet /\
    snd (process_photo self run fs output_path remove_bg true)
    = (replace output_path ".jpg" "_4x6_print.jpg", sheet)
        :: (output_path, primary) :: fs.
Proof.
  intros Hok.
  assert (P : fst (process_photo self run fs output_path remove_bg false) = true).
  { revert Hok. unfold process_photo.
    destruct (_ <- output_dir_ready run ;; _) as [image |]; [| discriminate].
    destruct (save run fs output_path image); [reflexivity | discriminate]. }
  destruct (process_photo_primary _ _ _ _ _ P) as (primary & Hsize & _ & E).
  pose proof (process_photo_print_stage _ _ _ _ _ _ E) as S.
  rewrite S in Hok |- *.
  destruct (create_4x6_print self primary) as [sheet |] eqn:Esheet;
    [| discriminate Hok].
  cbv zeta in Hok |- *.
  destruct (writable run _); [| discriminate Hok].
  exists primary, sheet. split; [exact Hsize |]. split; [exact Esheet | reflexivity].
Qed.

(** ** C1 *)

(** C1 (refuted on the code).  Whenever the ideal face-anchored crop exceeds
    the source, that is [photo_width > W] or [photo_height > H], the
    scale-down branch of [crop_and_resize] is entered and ends in
    [NameError: face_position_ratio]: no crop region is produced, no image
    is returned and [process_photo] reports failure without saving a file. *)
Theorem scale_down_branch_raises :
  forall (W H : Z) (fb : FaceBox) (image : Image),
    0 < W < 2 ^ 31 -> 0 < H < 2 ^ 31 ->
    valid_face_box fb W H ->
    size image = (W, H) ->
    too_large (face_frame default_aspect_ratio W H fb) W H = true ->
    crop_box init W H (Some fb) = Raise (NameError "face_position_ratio") /\
    crop_and_resize init image (Some fb) = Raise (NameError "face_position_ratio") /\
    forall run fs path remove_bg create_print,
      opened run = Ok image -> detected run = Some fb ->
      process_photo init run fs path remove_bg create_print = (false, fs).
Proof.
  intros W H fb image _ _ _ Hsize Hlarge.
  assert (B : crop_box init W H (Some fb) = Raise (NameError "face_position_ratio")).
  { unfold crop_box. rewrite init_eq. cbn [target_width_px target_height_px].
    change (truediv 413 531) with (Ok (Binary64.int_truediv 413 531)).
    cbn [bind].
    change (Binary64.int_truediv 413 531) with default_aspect_ratio.
    rewrite Hlarge. reflexivity. }
  assert (C : crop_and_resize init image (Some fb)
              = Raise (NameError "face_position_ratio")).
  { unfold crop_and_resize. rewrite Hsize, B. reflexivity. }
  split; [exact B | split; [exact C |]].
  intros run fs path remove_bg create_print Hopen Hface.
  unfold process_photo. rewrite Hopen, Hface.
  destruct (output_dir_ready run) as [[] |]; cbn [bind]; [| reflexivity].
  destruct (grayscale run) as [[] |]; cbn [bind]; [| reflexivity].
  unfold remove_background. destruct remove_bg; rewrite C; reflexivity.
Qed.

(** The 300x300 scenario: a 200x200 face box asks for a crop of about
    289x371, more than the image holds. *)
Lemma scale_down_branch_raises_300 :
  valid_face_box (50, 50, 200, 200) 300 300 /\
  too_large (face_frame default_aspect_ratio 300 300 (50, 50, 200, 200)) 300 300 = true /\
  crop_and_resize init (mkImage (300, 300) []) (Some (50, 50, 200, 200))
  = Raise (NameError "face_position_ratio").
Proof.
  split; [cbn; lia |].
  split; [vm_compute; reflexivity |].
  apply (scale_down_branch_raises 300 300 (50, 50, 200, 200) (mkImage (300, 300) []));
    [lia | lia | cbn; lia | reflexivity | vm_compute; reflexivity].
Defined.

(** ** C5 *)

(** C5, as stated, fails on the quoted [photo_width]: the code computes
    about 361.1, not 362.1. *)
Lemma scenario_photo_width_not_362 :
  ~ ((estimated_head_height scenario_frame == 325)%Q /\
     approx (photo_height scenario_frame) (4643 # 10) /\
     approx (photo_width scenario_frame) (3621 # 10) /\
     (crop_center_y scenario_frame
      == inject_Z (face_center_y scenario_frame) - 75)%Q).
Proof.
  intros (_ & _ & A & _). unfold approx in A.
  apply Qle_bool_iff in A. vm_compute in A. discriminate A.
Qed.

(** C5 (amended).  On a 1000x1200 image with face box (400,300,200,250) the
    face-anchored computation yields [estimated_head_height = 325],
    [photo_height] about 464.3, [photo_width] about 361.1, and a crop centre
    that keeps the horizontal face centre and lies exactly 75 pixels above
    the vertical face centre, before any boundary clamping. *)
Theorem scenario_values :
  (estimated_head_height scenario_frame == 325)%Q /\
  approx (photo_height scenario_frame) (4643 # 10) /\
  approx (photo_width scenario_frame) (3611 # 10) /\
  face_center_x scenario_frame = 500 /\
  face_center_y scenario_frame = 425 /\
  crop_center_x scenario_frame = face_center_x scenario_frame /\
  (crop_center_y scenario_frame
   == inject_Z (face_center_y scenario_frame) - 75)%Q.
Proof.
  repeat split; try (vm_compute; reflexivity);
    unfold approx; apply Qle_bool_iff; vm_compute; reflexivity.
Qed.

(** ** C7 *)

(** C7.  For every crop of at least 1x1 pixels that [crop_and_resize]
    takes from its image, with or without a face box, the resampling
    succeeds and the image returned has exactly the dimensions
    [(target_width_px, target_height_px) = (413, 531)], whatever the size
    or aspect ratio of the crop. *)
Theorem crop_and_resize_exact_dimensions :
  forall (image : Image) (W H : Z) (face_box : option FaceBox) (box : Box),
    size image = (W, H) ->
    crop_box init W H face_box = Ok box ->
    1 <= box_width box -> 1 <= box_height box ->
    exists out,
      crop_and_resize init image face_box = Ok out /\
      size out = (target_width_px init, target_height_px init) /\
      size out = (413, 531).
Proof.
  intros image W H face_box [[[x0 y0] x1] y1] Hsize Hbox Hw Hh.
  cbn [box_width box_height] in Hw, Hh.
  exists (mkImage (413, 531) []).
  split; [apply (crop_and_resize_ok image W H face_box x0 y0 x1 y1 Hsize Hbox); lia |].
  rewrite init_eq. split; reflexivity.
Qed.

(** A square source without a face box: the crop of 777x1000 pixels comes
    out as 413x531. *)
Lemma crop_and_resize_exact_dimensions_square :
  crop_box init 1000 1000 None = Ok (111, 0, 888, 1000) /\
  exists out,
    crop_and_resize init (mkImage (1000, 1000) []) None = Ok out /\
    size out = (target_width_px init, target_height_px init) /\
    size out = (413, 531).
Proof.
  split; [vm_compute; reflexivity |].
  apply (crop_and_resize_exact_dimensions
           (mkImage (1000, 1000) []) 1000 1000 None (111, 0, 888, 1000));
    [reflexivity | vm_compute; reflexivity | cbn; lia | cbn; lia].
Defined.

(** ** C10 *)

(** C10.  [create_4x6_print] returns a sheet of exactly 1800x1200 pixels for
    every input photo; for any configuration a sheet that is returned has
    the configured print size, whether or not the grid of photos fits on
    it. *)
Theorem print_sheet_size :
  (forall photo,
     exists sheet,
       create_4x6_print init photo = Ok sheet /\ size sheet = (1800, 1200)) /\
  (forall self photo sheet,
     create_4x6_print self photo = Ok sheet ->
     size sheet = (print_width_px self, print_height_px self)).
Proof.
  split; [| intros self photo sheet; apply create_4x6_print_size].
  intros photo. destruct (create_4x6_print_init photo) as [sheet E].
  exists sheet. split; [exact E |].
  rewrite (create_4x6_print_size _ _ _ E), init_eq. reflexivity.
Qed.

(** ** C8 *)

(** C8.  With the default print spec (413x531 photo, 1800x1200 sheet, two
    rows of three columns, margin 10) [create_4x6_print] pastes exactly six
    photo rectangles, pairwise non-overlapping, each inside
    [[0,1800] x [0,1200]]; the grid starts at
    [((SW - grid_w) / 2, (SH - grid_h) / 2) = (250, 49)] in whole pixels, and
    the photo of row [r], column [c] sits at its cell origin plus [(m, m)]. *)
Theorem default_print_layout :
  forall photo : Image,
    size photo = (413, 531) ->
    exists sheet,
      create_4x6_print init photo = Ok sheet /\
      let boxes := pasted_boxes sheet in
      List.length boxes = 6%nat /\
      ForallOrdPairs disjoint boxes /\
      Forall (fun b => inside b 1800 1200) boxes /\
      total_grid_width init = 3 * (413 + 2 * 10) /\
      total_grid_height init = 2 * (531 + 2 * 10) /\
      start_x init = (1800 - total_grid_width init) / 2 /\
      start_y init = (1200 - total_grid_height init) / 2 /\
      (start_x init, start_y init) = (250, 49) /\
      boxes =
        flat_map
          (fun row =>
             map (fun col =>
                    let cell_x := start_x init + col * cell_width init in
                    let cell_y := start_y init + row * cell_height init in
                    (cell_x + photo_margin, cell_y + photo_margin,
                     cell_x + photo_margin + 413, cell_y + photo_margin + 531))
                 [0; 1; 2])
          [0; 1].
Proof.
  intros photo Hsize.
  destruct (create_4x6_print_init photo) as [sheet Esheet].
  exists sheet. split; [exact Esheet |]. intros boxes.
  assert (E : boxes =
              [(260, 59, 673, 590); (693, 59, 1106, 590); (1126, 59, 1539, 590);
               (260, 610, 673, 1141); (693, 610, 1106, 1141);
               (1126, 610, 1539, 1141)]).
  { unfold boxes. rewrite (create_4x6_print_boxes _ _ _ Esheet), Hsize, init_eq.
    vm_compute. reflexivity. }
  rewrite E, init_eq.
  split; [reflexivity |].
  split.
  { repeat (apply FOP_cons;
            [repeat (apply Forall_cons; [cbn; lia |]); apply Forall_nil |]).
    apply FOP_nil. }
  split.
  { repeat (apply Forall_cons; [cbn; lia |]). apply Forall_nil. }
  repeat split; vm_compute; reflexivity.
Qed.

Lemma default_print_layout_blank_photo :
  exists sheet,
    create_4x6_print init (mkImage (413, 531) []) = Ok sheet /\
    let boxes := pasted_boxes sheet in
    List.length boxes = 6%nat /\
    ForallOrdPairs disjoint boxes /\
    Forall (fun b => inside b 1800 1200) boxes /\
    total_grid_width init = 3 * (413 + 2 * 10) /\
    total_grid_height init = 2 * (531 + 2 * 10) /\
    start_x init = (1800 - total_grid_width init) / 2 /\
    start_y init = (1200 - total_grid_height init) / 2 /\
    (start_x init, start_y init) = (250, 49) /\
    boxes =
      flat_map
        (fun row =>
           map (fun col =>
                  let cell_x := start_x init + col * cell_width init in
                  let cell_y := start_y init + row * cell_height init in
                  (cell_x + photo_margin, cell_y + photo_margin,
                   cell_x + photo_margin + 413, cell_y + photo_margin + 531))
               [0; 1; 2])
        [0; 1].
Proof.
  apply (default_print_layout (mkImage (413, 531) [])). reflexivity.
Defined.

(** ** C3 *)

(** C3, as stated, fails: for a photo of 600x531 pixels the grid of the
    specification needs 3 * (600 + 20) = 1860 > 1800 pixels, yet
    [create_4x6_print] raises no layout error; it returns the sheet with six
    pastes, the first over the rectangle from (260, 59) to (860, 590). *)
Lemma oversized_grid_is_not_rejected :
  let photo := mkImage (600, 531) [] in
  photo_grid_exceeds_sheet init photo /\
  exists sheet,
    create_4x6_print init photo = Ok sheet /\
    size sheet = (1800, 1200) /\
    List.length (pasted_boxes sheet) = 6%nat /\
    hd_error (pasted_boxes sheet) = Some (260, 59, 860, 590).
Proof.
  split; [left; vm_compute; reflexivity |].
  eexists. split; [vm_compute; reflexivity |].
  split; [reflexivity | split; reflexivity].
Qed.

(** C3 (amended).  [create_4x6_print] performs no fit check and reports no
    layout error: with the built-in constants it returns the 1800x1200
    sheet with all six photos pasted for every photo, also one for which
    [C*(photo_w+2m) > SW] or [R*(photo_h+2m) > SH].  For the 413x531 photo
    the grid (1299x1102) fits the sheet.  In [process_photo] the primary
    photo is saved before the sheet is built.  So in a run that has saved
    the primary photo, building the sheet does not fail; the outcome of the
    print stage is decided by saving the sheet: when that fails the run
    reports failure and the primary photo stays saved as it was, otherwise
    the sheet is saved after it. *)
Theorem print_sheet_never_rejected :
  (forall photo,
     exists sheet,
       create_4x6_print init photo = Ok sheet /\
       size sheet = (1800, 1200) /\
       List.length (pasted_boxes sheet) = 6%nat) /\
  (forall photo,
     size photo = (413, 531) -> ~ photo_grid_exceeds_sheet init photo) /\
  (total_grid_width init, total_grid_height init) = (1299, 1102) /\
  (forall run fs output_path remove_bg primary,
     process_photo init run fs output_path remove_bg false
     = (true, (output_path, primary) :: fs) ->
     let print_output_path := replace output_path ".jpg" "_4x6_print.jpg" in
     exists sheet,
       create_4x6_print init primary = Ok sheet /\
       process_photo init run fs output_path remove_bg true
       = (if writable run print_output_path
          then (true, (print_output_path, sheet) :: (output_path, primary) :: fs)
          else (false, (output_path, primary) :: fs))).
Proof.
  split; [| split; [| split]].
  - intros photo. destruct (create_4x6_print_init photo) as [sheet E].
    exists sheet. split; [exact E |].
    rewrite (create_4x6_print_size _ _ _ E), (create_4x6_print_boxes _ _ _ E), init_eq.
    split; reflexivity.
  - intros photo Hsize. unfold photo_grid_exceeds_sheet.
    rewrite Hsize, init_eq. vm_compute.
    intros [C | C]; discriminate C.
  - rewrite init_eq. reflexivity.
  - intros run fs output_path remove_bg primary Hprimary print_output_path.
    destruct (create_4x6_print_init primary) as [sheet E].
    exists sheet. split; [exact E |].
    rewrite (process_photo_print_stage _ _ _ _ _ _ Hprimary), E. reflexivity.
Qed.

(** The output path [out.jpg/x.jpg]: [replace] rewrites both occurrences of
    [.jpg], so the sheet is to go into a directory that nobody made and the
    disk refuses it.  The run reports failure, and the primary photo is
    saved as in the run without the sheet. *)
Lemma print_sheet_never_rejected_run :
  let run :=
    with_refused (String.eqb "out_4x6_print.jpg/x_4x6_print.jpg")
      (cooperative (mkImage (1000, 1200) []) (Some (400, 300, 200, 250))) in
  replace "out.jpg/x.jpg" ".jpg" "_4x6_print.jpg"
  = "out_4x6_print.jpg/x_4x6_print.jpg"%string /\
  exists primary sheet,
    process_photo init run [] "out.jpg/x.jpg" true false
    = (true, [("out.jpg/x.jpg"%string, primary)]) /\
    create_4x6_print init primary = Ok sheet /\
    process_photo init run [] "out.jpg/x.jpg" true true
    = (false, [("out.jpg/x.jpg"%string, primary)]).
Proof.
  intros run. split; [reflexivity |].
  destruct print_sheet_never_rejected as (_ & _ & _ & P).
  assert (E : process_photo init run [] "out.jpg/x.jpg" true false
              = (true, [("out.jpg/x.jpg"%string,
                         mkImage (413, 531) [Paste (413, 531) (0, 0)])]))
    by (vm_compute; reflexivity).
  destruct (P run [] "out.jpg/x.jpg"%string true _ E) as (sheet & Esheet & Eprint).
  exists (mkImage (413, 531) [Paste (413, 531) (0, 0)]), sheet.
  split; [exact E |]. split; [exact Esheet |]. exact Eprint.
Defined.

(** ** C9 *)

Lemma replace_from_absent old new s :
  occurs old s = false -> replace_from old new 0 s = s.
Proof.
  induction s as [| c s IH]; [reflexivity |].
  cbn [occurs replace_from]. intros H.
  apply orb_false_iff in H. destruct H as [H1 H2].
  rewrite H1, (IH H2). reflexivity.
Qed.

Lemma replace_absent s old new : occurs old s = false -> replace s old new = s.
Proof.
  intros H. unfold replace. destruct old as [| a old'].
  - destruct s; discriminate H.
  - apply replace_from_absent, H.
Qed.

(** C9 (refuted on the code).  When the primary output path contains no
    [.jpg], [str.replace] leaves it unchanged, the print sheet is saved at
    the primary path itself and the file found there afterwards is the
    1800x1200 sheet: the primary photo has been overwritten. *)
Theorem print_sheet_overwrites_primary :
  forall run fs output_path remove_bg,
    occurs ".jpg" output_path = false ->
    fst (process_photo init run fs output_path remove_bg true) = true ->
    replace output_path ".jpg" "_4x6_print.jpg" = output_path /\
    exists sheet,
      file_at (snd (process_photo init run fs output_path remove_bg true)) output_path
      = Some sheet /\
      size sheet = (1800, 1200) /\
      size sheet <> (target_width_px init, target_height_px init).
Proof.
  intros run fs output_path remove_bg Habs Hok.
  pose proof (replace_absent output_path ".jpg" "_4x6_print.jpg" Habs) as R.
  split; [exact R |].
  destruct (process_photo_saves init run fs output_path remove_bg Hok)
    as (primary & sheet & _ & Esheet & E).
  rewrite E, R. exists sheet. split; [apply file_at_head |].
  rewrite (create_4x6_print_size _ _ _ Esheet), init_eq.
  split; [reflexivity | discriminate].
Qed.

Lemma print_sheet_overwrites_primary_jpeg :
  replace "output/portrait_visa.jpeg" ".jpg" "_4x6_print.jpg"
  = "output/portrait_visa.jpeg"%string /\
  exists sheet,
    file_at
      (snd (process_photo init
              (cooperative (mkImage (1000, 1200) []) (Some (400, 300, 200, 250)))
              [] "output/portrait_visa.jpeg" true true))
      "output/portrait_visa.jpeg"
    = Some sheet /\
    size sheet = (1800, 1200) /\
    size sheet <> (target_width_px init, target_height_px init).
Proof.
  apply (print_sheet_overwrites_primary
           (cooperative (mkImage (1000, 1200) []) (Some (400, 300, 200, 250)))
           [] "output/portrait_visa.jpeg" true);
    vm_compute; reflexivity.
Defined.

(** On a path that ends in its only [.jpg] the suffix is inserted as
    described. *)
Example print_path_photo_visa :
  replace "photo_visa.jpg" ".jpg" "_4x6_print.jpg" = "photo_visa_4x6_print.jpg"%string.
Proof. reflexivity. Qed.

(* ================================================================== *)
(** * Part IV: further properties of the code *)
(* ================================================================== *)

Local Open Scope Z_scope.

(** ** The path of the print sheet *)

Section PrintPath.
Local Open Scope string_scope.
Local Open Scope nat_scope.

Lemma length_app a b : String.length (a ++ b) = String.length a + String.length b.
Proof. induction a as [| c a IH]; cbn; [reflexivity | rewrite IH; reflexivity]. Qed.

(** Replacing by a string that is not shorter never shortens the text;
    [k] characters of a matched occurrence may still be pending. *)
Lemma replace_from_length old new s :
  1 <= String.length old -> String.length old <= String.length new ->
  forall k, String.length s <= String.length (replace_from old new k s) + k.
Proof.
  intros H1 H2. induction s as [| c s IH]; intros k; [cbn; lia |].
  destruct k as [| k].
  - cbn [replace_from]. destruct (prefix old (String c s)).
    + rewrite length_app. specialize (IH (String.length old - 1)). cbn. lia.
    + specialize (IH 0). cbn. lia.
  - cbn [replace_from]. specialize (IH k). cbn. lia.
Qed.

Lemma replace_from_longer old new s :
  1 <= String.length old -> String.length old < String.length new ->
  occurs old s = true ->
  String.length s < String.length (replace_from old new 0 s).
Proof.
  intros H1 H2. induction s as [| c s IH]; intros Hocc.
  - destruct old; [cbn in H1; lia | discriminate Hocc].
  - cbn [occurs] in Hocc. cbn [replace_from].
    destruct (prefix old (String c s)) eqn:P.
    + rewrite length_app.
      pose proof (replace_from_length old new s H1 ltac:(lia)
                    (String.length old - 1)). cbn. lia.
    + cbn in Hocc. specialize (IH Hocc). cbn. lia.
Qed.

Lemma append_empty_r s : s ++ EmptyString = s.
Proof. induction s as [| c s IH]; cbn; [reflexivity | rewrite IH; reflexivity]. Qed.

Lemma occurs_app_r old a b : occurs old b = true -> occurs old (a ++ b) = true.
Proof.
  intros H. induction a as [| c a IH]; [exact H |].
  cbn [append occurs]. rewrite IH. apply orb_true_r.
Qed.

(** An occurrence of [.jpg] cannot start inside [base] and end inside an
    appended [.jpg]. *)
Lemma prefix_jpg_app base :
  prefix ".jpg" base = false -> base <> EmptyString ->
  prefix ".jpg" (base ++ ".jpg") = false.
Proof.
  intros P N.
  destruct base as [| c1 b1]; [contradiction |].
  cbn [append prefix] in *.
  destruct (ascii_dec "." c1); [| reflexivity].
  destruct b1 as [| c2 b2]; [reflexivity |].
  cbn [append prefix] in *.
  destruct (ascii_dec "j" c2); [| reflexivity].
  destruct b2 as [| c3 b3]; [reflexivity |].
  cbn [append prefix] in *.
  destruct (ascii_dec "p" c3); [| reflexivity].
  destruct b3 as [| c4 b4]; [reflexivity |].
  cbn [append prefix] in *.
  destruct (ascii_dec "g" c4); [| reflexivity].
  destruct b4; discriminate P.
Qed.

Lemma replace_from_suffix_jpg new base :
  occurs ".jpg" base = false ->
  replace_from ".jpg" new 0 (base ++ ".jpg") = base ++ new.
Proof.
  induction base as [| c base IH]; intros H.
  - cbn. rewrite append_empty_r. reflexivity.
  - cbn [occurs] in H. apply orb_false_iff in H. destruct H as [P O].
    pose proof (prefix_jpg_app (String c base) P ltac:(discriminate)) as Q.
    cbn [append] in Q |- *. cbn [replace_from]. rewrite Q, (IH O). reflexivity.
Qed.

End PrintPath.

Lemma file_at_second (fs : FileSystem) p q a b :
  q <> p -> file_at ((q, b) :: (p, a) :: fs) p = Some a.
Proof.
  intros N. cbn [file_at].
  destruct (String.eqb_spec q p) as [E | _]; [contradiction |].
  rewrite String.eqb_refl. reflexivity.
Qed.

Lemma occurs_print_path_differs path :
  occurs ".jpg" path = true -> replace path ".jpg" "_4x6_print.jpg" <> path.
Proof.
  intros O E.
  pose proof (replace_from_longer ".jpg" "_4x6_print.jpg" path
                ltac:(cbn; lia) ltac:(cbn; lia) O) as L.
  unfold replace in E. rewrite E in L. lia.
Qed.

(** X1.  The print sheet path produced by
    [output_path.replace('.jpg', '_4x6_print.jpg')] equals the primary
    output path exactly when [.jpg] does not occur in that path. *)
Theorem print_path_same_iff :
  forall output_path : string,
    replace output_path ".jpg" "_4x6_print.jpg" = output_path <->
    occurs ".jpg" output_path = false.
Proof.
  intros path. split.
  - intros E. destruct (occurs ".jpg" path) eqn:O; [| reflexivity].
    exfalso. exact (occurs_print_path_differs path O E).
  - apply replace_absent.
Qed.

(** X2.  For an output path [base.jpg] whose [base] contains no [.jpg], the
    print sheet path is [base_4x6_print.jpg]. *)
Theorem print_path_of_jpg :
  forall base : string,
    occurs ".jpg" base = false ->
    replace (base ++ ".jpg") ".jpg" "_4x6_print.jpg"
    = (base ++ "_4x6_print.jpg")%string.
Proof.
  intros base H. unfold replace. apply replace_from_suffix_jpg, H.
Qed.

Lemma print_path_of_jpg_photo_visa :
  replace ("output/photo_visa" ++ ".jpg") ".jpg" "_4x6_print.jpg"
  = ("output/photo_visa" ++ "_4x6_print.jpg")%string.
Proof.
  apply (print_path_of_jpg "output/photo_visa"). reflexivity.
Defined.

(** X3.  When the output path contains [.jpg], a successful run with the
    print sheet requested leaves both files: the 413x531 primary photo at
    the output path and, at a different path, the 1800x1200 sheet with six
    pasted photos. *)
Theorem both_files_saved :
  forall run fs output_path remove_bg,
    occurs ".jpg" output_path = true ->
    fst (process_photo init run fs output_path remove_bg true) = true ->
    let fs' := snd (process_photo init run fs output_path remove_bg true) in
    let print_path := replace output_path ".jpg" "_4x6_print.jpg" in
    print_path <> output_path /\
    (exists primary,
       file_at fs' output_path = Some primary /\ size primary = (413, 531)) /\
    (exists sheet,
       file_at fs' print_path = Some sheet /\ size sheet = (1800, 1200) /\
       List.length (pasted_boxes sheet) = 6%nat).
Proof.
  intros run fs path remove_bg O Hok fs' print_path.
  pose proof (occurs_print_path_differs path O) as N. fold print_path in N.
  destruct (process_photo_saves init run fs path remove_bg Hok)
    as (primary & sheet & Hsize & Esheet & E).
  unfold fs'. rewrite E. fold print_path.
  split; [exact N |]. split.
  - exists primary. split; [apply file_at_second, N |].
    rewrite Hsize, init_eq. reflexivity.
  - exists sheet. split; [apply file_at_head |].
    rewrite (create_4x6_print_size _ _ _ Esheet),
            (create_4x6_print_boxes _ _ _ Esheet), init_eq.
    split; reflexivity.
Qed.

Lemma both_files_saved_photo_visa :
  let run := cooperative (mkImage (1000, 1200) []) (Some (400, 300, 200, 250)) in
  let fs' := snd (process_photo init run [] "photo_visa.jpg" true true) in
  "photo_visa_4x6_print.jpg"%string <> "photo_visa.jpg"%string /\
  (exists primary,
     file_at fs' "photo_visa.jpg" = Some primary /\ size primary = (413, 531)) /\
  (exists sheet,
     file_at fs' "photo_visa_4x6_print.jpg" = Some sheet /\
     size sheet = (1800, 1200) /\
     List.length (pasted_boxes sheet) = 6%nat).
Proof.
  apply (both_files_saved
           (cooperative (mkImage (1000, 1200) []) (Some (400, 300, 200, 250)))
           [] "photo_visa.jpg" true); vm_compute; reflexivity.
Defined.

(** ** [process_photo] without the print sheet, and on failure *)

(** X4.  With [create_print] false a successful run writes one file only:
    the primary photo, of the target size, at the output path; files saved
    earlier are kept. *)
Theorem no_print_saves_primary_only :
  forall self run fs output_path remove_bg,
    fst (process_photo self run fs output_path remove_bg false) = true ->
    exists primary,
      size primary = (target_width_px self, target_height_px self) /\
      snd (process_photo self run fs output_path remove_bg false)
      = (output_path, primary) :: fs.
Proof.
  intros self run fs path remove_bg Hok.
  destruct (process_photo_primary self run fs path remove_bg Hok)
    as (primary & Hsize & _ & E).
  exists primary. split; [exact Hsize |]. rewrite E. reflexivity.
Qed.

Lemma no_print_saves_primary_only_scenario :
  exists primary,
    size primary = (target_width_px init, target_height_px init) /\
    snd (process_photo init
           (cooperative (mkImage (1000, 1200) []) (Some (400, 300, 200, 250)))
           [] "photo_visa.jpg" true false)
    = [("photo_visa.jpg"%string, primary)].
Proof.
  apply (no_print_saves_primary_only init
           (cooperative (mkImage (1000, 1200) []) (Some (400, 300, 200, 250)))
           [] "photo_visa.jpg" true).
  vm_compute. reflexivity.
Defined.

(** X5.  When the input cannot be decoded, or [crop_and_resize] raises, the
    run reports failure and writes nothing, whatever the flags. *)
Theorem failed_stage_writes_nothing :
  forall self run fs output_path remove_bg create_print,
    (exists e, opened run = Raise e) \/
    (exists image e,
       opened run = Ok image /\
       crop_and_resize self image (detected run) = Raise e) ->
    process_photo self run fs output_path remove_bg create_print = (false, fs).
Proof.
  intros self run fs path remove_bg create_print [[e E] | (image & e & E & C)];
    unfold process_photo; rewrite E;
    (destruct (output_dir_ready run) as [[] |]; cbn [bind]; [| reflexivity]);
    [reflexivity |].
  destruct (grayscale run) as [[] |]; cbn [bind]; [| reflexivity].
  unfold remove_background. destruct remove_bg; rewrite C; reflexivity.
Qed.

Lemma failed_stage_writes_nothing_undecodable :
  process_photo init
    (mkRun (Ok tt) (Raise (OSError "cannot identify image file")) (Ok tt) None
           (fun _ => true))
    [] "photo_visa.jpg" true true
  = (false, []).
Proof.
  apply (failed_stage_writes_nothing init
           (mkRun (Ok tt) (Raise (OSError "cannot identify image file")) (Ok tt)
                  None (fun _ => true))).
  left. eexists. reflexivity.
Defined.

(** ** [main] *)

Lemma default_output_has_jpg input_path :
  occurs ".jpg" (default_output input_path) = true.
Proof.
  unfold default_output. apply occurs_app_r, occurs_app_r. reflexivity.
Qed.

(** X6.  Without [--output], [main] writes to
    [output/<name without extension>_visa.jpg]; this path always contains
    [.jpg], so a successful default run exits with status 0 and leaves the
    413x531 primary photo there and the 1800x1200 sheet at a different
    path. *)
Theorem main_default_output :
  forall args run fs,
    output args = None -> no_print args = false ->
    fst (process_photo init run fs (default_output (input args))
                       (negb (no_bg_removal args)) true) = true ->
    let out := default_output (input args) in
    let print_path := replace out ".jpg" "_4x6_print.jpg" in
    fst (main args true run fs) = 0 /\
    print_path <> out /\
    (exists primary,
       file_at (snd (main args true run fs)) out = Some primary /\
       size primary = (413, 531)) /\
    (exists sheet,
       file_at (snd (main args true run fs)) print_path = Some sheet /\
       size sheet = (1800, 1200)).
Proof.
  intros args run fs Hout Hprint Hok out print_path.
  pose proof (default_output_has_jpg (input args)) as O. fold out in O.
  assert (M : main args true run fs
              = (0, snd (process_photo init run fs out
                           (negb (no_bg_removal args)) true))).
  { unfold main. cbn [negb]. rewrite Hout, Hprint. cbn [negb]. fold out.
    fold out in Hok.
    destruct (process_photo init run fs out (negb (no_bg_removal args)) true)
      as [success fs'].
    cbn [fst] in Hok. subst success. reflexivity. }
  rewrite M. cbn [fst snd].
  pose proof (occurs_print_path_differs out O) as N. fold print_path in N.
  destruct (process_photo_saves init run fs out _ Hok)
    as (primary & sheet & Hsize & Esheet & E).
  fold out in E. rewrite E. fold print_path.
  split; [reflexivity |]. split; [exact N |]. split.
  - exists primary. split; [apply file_at_second, N |].
    rewrite Hsize, init_eq. reflexivity.
  - exists sheet. split; [apply file_at_head |].
    rewrite (create_4x6_print_size _ _ _ Esheet), init_eq. reflexivity.
Qed.

Lemma main_default_output_portrait :
  let args := mkArgs "photos/portrait.png" None false false in
  let run := cooperative (mkImage (1000, 1200) []) (Some (400, 300, 200, 250)) in
  default_output "photos/portrait.png" = "output/portrait_visa.jpg"%string /\
  fst (main args true run []) = 0 /\
  (exists primary,
     file_at (snd (main args true run [])) "output/portrait_visa.jpg" = Some primary /\
     size primary = (413, 531)) /\
  (exists sheet,
     file_at (snd (main args true run [])) "output/portrait_visa_4x6_print.jpg"
     = Some sheet /\
     size sheet = (1800, 1200)).
Proof.
  intros args run. split; [reflexivity |].
  destruct (main_default_output args run []) as (A & _ & B & C);
    [reflexivity | reflexivity | vm_compute; reflexivity |].
  split; [exact A | split; [exact B | exact C]].
Defined.

(** X7.  An exit status of 0 means the output file is there: [main] returns
    normally only if the input file existed, and then the output path,
    given or default, holds a file: the 413x531 primary photo when
    [--no-print] is given or the path contains [.jpg], and otherwise the
    1800x1200 sheet that was saved over it. *)
Theorem main_exit_zero_means_saved :
  forall args input_exists run fs,
    fst (main args input_exists run fs) = 0 ->
    let output_path :=
      match output args with
      | None => default_output (input args)
      | Some path => path
      end in
    input_exists = true /\
    exists image,
      file_at (snd (main args input_exists run fs)) output_path = Some image /\
      size image = if no_print args || occurs ".jpg" output_path
                   then (413, 531) else (1800, 1200).
Proof.
  intros args input_exists run fs Hexit output_path.
  unfold main in Hexit |- *. fold output_path in Hexit |- *.
  destruct input_exists; cbn [negb] in Hexit |- *; [| discriminate Hexit].
  split; [reflexivity |].
  destruct (process_photo init run fs output_path (negb (no_bg_removal args))
                          (negb (no_print args))) as [success fs'] eqn:E.
  destruct success; [| discriminate Hexit]. cbn [snd].
  assert (Hok : fst (process_photo init run fs output_path
                       (negb (no_bg_removal args)) (negb (no_print args))) = true)
    by (rewrite E; reflexivity).
  assert (Efs : fs' = snd (process_photo init run fs output_path
                             (negb (no_bg_removal args)) (negb (no_print args))))
    by (rewrite E; reflexivity).
  destruct (no_print args); cbn [negb orb] in Hok, Efs |- *.
  - destruct (process_photo_primary init run fs output_path _ Hok)
      as (primary & Hsize & _ & Ep).
    rewrite Ep in Efs. cbn [snd] in Efs. subst fs'.
    exists primary. split; [apply file_at_head |].
    rewrite Hsize, init_eq. reflexivity.
  - destruct (process_photo_saves init run fs output_path _ Hok)
      as (primary & sheet & Hsize & Esheet & Es).
    rewrite Es in Efs. subst fs'.
    destruct (occurs ".jpg" output_path) eqn:O.
    + exists primary.
      split; [apply file_at_second, occurs_print_path_differs, O |].
      rewrite Hsize, init_eq. reflexivity.
    + rewrite (replace_absent output_path ".jpg" "_4x6_print.jpg" O).
      exists sheet. split; [apply file_at_head |].
      rewrite (create_4x6_print_size _ _ _ Esheet), init_eq. reflexivity.
Qed.

Lemma main_exit_zero_means_saved_jpeg :
  let args := mkArgs "photos/portrait.png" (Some "portrait.jpeg"%string) true false in
  let run := cooperative (mkImage (1000, 1200) []) (Some (400, 300, 200, 250)) in
  exists image,
    file_at (snd (main args true run [])) "portrait.jpeg" = Some image /\
    size image = (1800, 1200).
Proof.
  intros args run.
  destruct (main_exit_zero_means_saved args true run []) as (_ & image & F & S);
    [vm_compute; reflexivity |].
  exists image. split; [exact F | exact S].
Defined.

(** ** [detect_face] *)

(** [max_by] returns the first element with the largest key. *)
Lemma max_by_first_largest {A : Type} (key : A -> Z) (rest : list A) :
  forall best,
    key best <= key (max_by key best rest) /\
    exists l1 l2,
      best :: rest = l1 ++ max_by key best rest :: l2 /\
      (forall g, In g l1 -> key g < key (max_by key best rest)) /\
      (forall g, In g l2 -> key g <= key (max_by key best rest)).
Proof.
  induction rest as [| x rest IH]; intros best.
  - cbn. split; [lia |]. exists [], []. repeat split; intros g [].
  - cbn [max_by]. destruct (Z.ltb_spec (key best) (key x)) as [Lt | Ge].
    + destruct (IH x) as (Hx & l1 & l2 & E & H1 & H2).
      split; [lia |].
      exists (best :: l1), l2. split; [cbn; rewrite E; reflexivity |].
      split; [| exact H2].
      intros g [<- | Hg]; [lia | apply H1, Hg].
    + destruct (IH best) as (Hb & l1 & l2 & E & H1 & H2).
      split; [exact Hb |].
      destruct l1 as [| b l1].
      * cbn in E. injection E as Eb Er.
        exists [], (x :: l2). split; [cbn; rewrite <- Eb, Er; reflexivity |].
        split; [intros g [] |].
        intros g [<- | Hg]; [rewrite <- Eb; lia | apply H2, Hg].
      * cbn in E. injection E as Eb Er. subst b.
        exists (best :: x :: l1), l2.
        split; [cbn; do 2 f_equal; exact Er |].
        split; [| exact H2].
        pose proof (H1 best (or_introl eq_refl)) as Hbest.
        intros g [<- | [<- | Hg]]; [exact Hbest | lia | apply H1; right; exact Hg].
Qed.

Lemma wrap32_small n : 0 <= n < 2 ^ 31 -> wrap32 n = n.
Proof.
  intros H. unfold wrap32. rewrite Z.mod_small; lia.
Qed.

Lemma face_area_true f :
  0 <= true_area f < 2 ^ 31 -> face_area f = true_area f.
Proof.
  destruct f as [[[x y] w] h]. apply wrap32_small.
Qed.

(** X8.  [detect_face] returns [None] exactly when both detections find
    nothing; otherwise it returns a face of the first detection when that
    is non-empty, and of the relaxed detection only when the first is
    empty. *)
Theorem detect_face_none_iff :
  forall strict relaxed : list FaceBox,
    (detect_face strict relaxed = None <-> strict = [] /\ relaxed = []) /\
    (forall f, detect_face strict relaxed = Some f ->
       In f (candidates strict relaxed) /\
       (strict <> [] -> In f strict)).
Proof.
  intros strict relaxed. split.
  - unfold detect_face. destruct strict as [| s strict].
    + destruct relaxed; split; try discriminate; auto.
      intros [_ E]; discriminate E.
    + split; [discriminate | intros [E _]; discriminate E].
  - intros f E. unfold detect_face, candidates in *.
    assert (M : forall first rest,
               Some (max_by face_area first rest) = Some f -> In f (first :: rest)).
    { intros first rest Ef. injection Ef as <-.
      destruct (max_by_first_largest face_area rest first) as (_ & l1 & l2 & El & _).
      rewrite El. apply in_or_app. right. left. reflexivity. }
    destruct strict as [| s strict].
    + destruct relaxed as [| r relaxed]; [discriminate E |].
      split; [apply M, E | intros N; contradiction].
    + split; [apply M, E | intros _; apply M, E].
Qed.

(** X9.  Among the faces it chooses from, [detect_face] returns the first
    one of largest area [w * h]: every earlier face is strictly smaller and
    no later face is larger, provided the areas fit 32-bit integers. *)
Theorem detect_face_first_largest :
  forall (strict relaxed : list FaceBox) (f : FaceBox),
    Forall (fun g => 0 <= true_area g < 2 ^ 31) (candidates strict relaxed) ->
    detect_face strict relaxed = Some f ->
    exists earlier later,
      candidates strict relaxed = earlier ++ f :: later /\
      (forall g, In g earlier -> true_area g < true_area f) /\
      (forall g, In g later -> true_area g <= true_area f).
Proof.
  intros strict relaxed f Hfit E.
  assert (M : forall first rest,
             first :: rest = candidates strict relaxed ->
             Some (max_by face_area first rest) = Some f ->
             exists earlier later,
               candidates strict relaxed = earlier ++ f :: later /\
               (forall g, In g earlier -> true_area g < true_area f) /\
               (forall g, In g later -> true_area g <= true_area f)).
  { intros first rest Ec Ef. injection Ef as <-.
    destruct (max_by_first_largest face_area rest first)
      as (_ & l1 & l2 & El & H1 & H2).
    rewrite <- Ec in *. rewrite Forall_forall in Hfit.
    set (m := max_by face_area first rest) in *.
    assert (Hm : In m (first :: rest))
      by (rewrite El; apply in_or_app; right; left; reflexivity).
    exists l1, l2. split; [exact El |].
    split; intros g Hg.
    - assert (Hin : In g (first :: rest))
        by (rewrite El; apply in_or_app; left; exact Hg).
      rewrite <- (face_area_true g (Hfit g Hin)), <- (face_area_true m (Hfit m Hm)).
      apply H1, Hg.
    - assert (Hin : In g (first :: rest))
        by (rewrite El; apply in_or_app; right; right; exact Hg).
      rewrite <- (face_area_true g (Hfit g Hin)), <- (face_area_true m (Hfit m Hm)).
      apply H2, Hg. }
  unfold detect_face in E. unfold candidates in M.
  destruct strict as [| s strict].
  - destruct relaxed as [| r relaxed]; [discriminate E |].
    apply (M r relaxed eq_refl E).
  - apply (M s strict eq_refl E).
Qed.

Lemma detect_face_first_largest_three :
  exists earlier later,
    candidates [(10, 10, 100, 100); (300, 200, 180, 180); (600, 50, 180, 180)] []
    = earlier ++ (300, 200, 180, 180) :: later /\
    (forall g, In g earlier -> true_area g < true_area (300, 200, 180, 180)) /\
    (forall g, In g later -> true_area g <= true_area (300, 200, 180, 180)).
Proof.
  apply (detect_face_first_largest
           [(10, 10, 100, 100); (300, 200, 180, 180); (600, 50, 180, 180)] []
           (300, 200, 180, 180)).
  - repeat (apply Forall_cons; [cbn; lia |]). apply Forall_nil.
  - vm_compute. reflexivity.
Defined.

(** ** [create_4x6_print] for any configuration *)

Lemma create_4x6_print_outlines self photo sheet :
  create_4x6_print self photo = Ok sheet ->
  outlined_boxes sheet =
  flat_map
    (fun row =>
       map (fun col =>
              let x := start_x self + col * cell_width self + photo_margin in
              let y := start_y self + row * cell_height self + photo_margin in
              (x - border_thickness, y - border_thickness,
               x + target_width_px self + border_thickness,
               y + target_height_px self + border_thickness))
           (range photos_per_row))
    (range photos_per_col).
Proof.
  rewrite create_4x6_print_eq.
  destruct (_ || _); [discriminate |].
  destruct (_ <? _); [discriminate |].
  destruct (_ <? _); [discriminate |].
  intros E. injection E as <-. reflexivity.
Qed.

(** A sheet with non-negative sides and target sides is built without
    error. *)
Lemma create_4x6_print_returns self photo :
  0 <= print_width_px self -> 0 <= print_height_px self ->
  0 <= target_width_px self -> 0 <= target_height_px self ->
  exists sheet, create_4x6_print self photo = Ok sheet.
Proof.
  intros Pw Ph Tw Th. rewrite create_4x6_print_eq.
  destruct (Z.ltb_spec (print_width_px self) 0); [lia |].
  destruct (Z.ltb_spec (print_height_px self) 0); [lia |].
  destruct (Z.ltb_spec (target_width_px self) (-2)); [lia |].
  destruct (Z.ltb_spec (target_height_px self) (-2)); [lia |].
  eexists. reflexivity.
Qed.

Ltac grid_cases :=
  change (range photos_per_row) with [0; 1; 2];
  change (range photos_per_col) with [0; 1];
  cbn [flat_map map app];
  unfold cell_width, cell_height, photo_margin, border_thickness.

(** X10.  For every configuration and every sheet [create_4x6_print]
    returns: if the pasted photo is not larger than a cell
    ([photo_w <= target_width_px + 2m], [photo_h <= target_height_px + 2m])
    the six pasted rectangles are pairwise disjoint; the six outlines are
    pairwise disjoint for every configuration and photo. *)
Theorem print_cells_never_overlap :
  forall (self : VisaPhotoProcessor) (photo sheet : Image),
    create_4x6_print self photo = Ok sheet ->
    (fst (size photo) <= cell_width self ->
     snd (size photo) <= cell_height self ->
     ForallOrdPairs disjoint (pasted_boxes sheet)) /\
    ForallOrdPairs disjoint (outlined_boxes sheet).
Proof.
  intros self photo sheet E. split.
  - intros Hw Hh. rewrite (create_4x6_print_boxes _ _ _ E).
    destruct (size photo) as [w h]. cbn [fst snd] in *.
    revert Hw Hh. grid_cases. intros Hw Hh.
    set (sx := start_x self). set (sy := start_y self).
    repeat (apply FOP_cons;
            [repeat (apply Forall_cons; [unfold disjoint; lia |]); apply Forall_nil |]).
    apply FOP_nil.
  - rewrite (create_4x6_print_outlines _ _ _ E). grid_cases.
    set (sx := start_x self). set (sy := start_y self).
    repeat (apply FOP_cons;
            [repeat (apply Forall_cons; [unfold disjoint; lia |]); apply Forall_nil |]).
    apply FOP_nil.
Qed.

Lemma print_cells_never_overlap_default :
  exists sheet,
    create_4x6_print init (mkImage (413, 531) []) = Ok sheet /\
    ForallOrdPairs disjoint (pasted_boxes sheet) /\
    ForallOrdPairs disjoint (outlined_boxes sheet).
Proof.
  destruct (create_4x6_print init (mkImage (413, 531) [])) as [sheet |] eqn:E;
    [| vm_compute in E; discriminate E].
  exists sheet. split; [reflexivity |].
  destruct (print_cells_never_overlap init (mkImage (413, 531) []) sheet E)
    as [P O].
  split; [apply P; vm_compute; discriminate | exact O].
Defined.

(** X11.  For every configuration with non-negative target sizes whose grid
    fits the sheet, and a photo of the target size: the grid is centred to
    within one pixel, every pasted photo and every outline lies inside the
    sheet, and every outline is the rectangle of its photo grown by one
    pixel on each side. *)
Theorem fitting_grid_inside_sheet :
  forall (self : VisaPhotoProcessor) (photo : Image),
    0 <= target_width_px self -> 0 <= target_height_px self ->
    ~ grid_exceeds_sheet self ->
    size photo = (target_width_px self, target_height_px self) ->
    exists sheet,
      create_4x6_print self photo = Ok sheet /\
      0 <= (print_width_px self - (start_x self + total_grid_width self))
           - start_x self <= 1 /\
      0 <= (print_height_px self - (start_y self + total_grid_height self))
           - start_y self <= 1 /\
      Forall (fun b => inside b (print_width_px self) (print_height_px self))
             (pasted_boxes sheet) /\
      Forall (fun b => inside b (print_width_px self) (print_height_px self))
             (outlined_boxes sheet) /\
      outlined_boxes sheet = map (grow border_thickness) (pasted_boxes sheet).
Proof.
  intros self photo Hw Hh Hfit Hsize.
  assert (Fw : total_grid_width self <= print_width_px self)
    by (unfold grid_exceeds_sheet in Hfit; lia).
  assert (Fh : total_grid_height self <= print_height_px self)
    by (unfold grid_exceeds_sheet in Hfit; lia).
  pose proof (Z.div_mod (print_width_px self - total_grid_width self) 2 ltac:(lia)) as Dx.
  pose proof (Z.mod_pos_bound (print_width_px self - total_grid_width self) 2 ltac:(lia)) as Mx.
  pose proof (Z.div_mod (print_height_px self - total_grid_height self) 2 ltac:(lia)) as Dy.
  pose proof (Z.mod_pos_bound (print_height_px self - total_grid_height self) 2 ltac:(lia)) as My.
  fold (start_x self) in Dx. fold (start_y self) in Dy.
  destruct (create_4x6_print_returns self photo) as [sheet E];
    [unfold total_grid_width, cell_width, photos_per_row, photo_margin in Fw; lia
    |unfold total_grid_height, cell_height, photos_per_col, photo_margin in Fh; lia
    | exact Hw | exact Hh |].
  exists sheet. split; [exact E |].
  rewrite (create_4x6_print_boxes _ _ _ E), (create_4x6_print_outlines _ _ _ E), Hsize.
  cbn [fst snd].
  unfold total_grid_width, total_grid_height, photos_per_row, photos_per_col in *.
  revert Fw Fh Dx Mx Dy My. grid_cases. intros Fw Fh Dx Mx Dy My.
  set (sx := start_x self) in *. set (sy := start_y self) in *.
  split; [lia |]. split; [lia |].
  split; [repeat (apply Forall_cons; [unfold inside; lia |]); apply Forall_nil |].
  split; [repeat (apply Forall_cons; [unfold inside; lia |]); apply Forall_nil |].
  reflexivity.
Qed.

Lemma fitting_grid_inside_sheet_default :
  exists sheet,
    create_4x6_print init (mkImage (413, 531) []) = Ok sheet /\
    0 <= (print_width_px init - (start_x init + total_grid_width init))
         - start_x init <= 1 /\
    0 <= (print_height_px init - (start_y init + total_grid_height init))
         - start_y init <= 1 /\
    Forall (fun b => inside b (print_width_px init) (print_height_px init))
           (pasted_boxes sheet) /\
    Forall (fun b => inside b (print_width_px init) (print_height_px init))
           (outlined_boxes sheet) /\
    outlined_boxes sheet = map (grow border_thickness) (pasted_boxes sheet).
Proof.
  apply (fitting_grid_inside_sheet init (mkImage (413, 531) []));
    [vm_compute; discriminate | vm_compute; discriminate | | vm_compute; reflexivity].
  unfold grid_exceeds_sheet. vm_compute. intros [C | C]; discriminate C.
Defined.

(** ** [crop_and_resize]: when it succeeds *)

Lemma crop_box_too_large W H fb :
  too_large (face_frame default_aspect_ratio W H fb) W H = true ->
  crop_box init W H (Some fb) = Raise (NameError "face_position_ratio").
Proof.
  intros Hlarge. unfold crop_box. rewrite init_eq.
  cbn [target_width_px target_height_px].
  change (truediv 413 531) with (Ok default_aspect_ratio). cbn [bind].
  rewrite Hlarge. reflexivity.
Qed.

Lemma crop_and_resize_too_large image W H (fb : FaceBox) :
  size image = (W, H) ->
  too_large (face_frame default_aspect_ratio W H fb) W H = true ->
  crop_and_resize init image (Some fb) = Raise (NameError "face_position_ratio").
Proof.
  intros Hsize Hlarge. unfold crop_and_resize.
  rewrite Hsize, (crop_box_too_large W H fb Hlarge). reflexivity.
Qed.

(** X12.  With no face box and a source of at least two rows
    (0 < W < 2^31, 2 <= H < 2^31), [crop_and_resize] never raises: the
    centre crop is non-empty and the result is a 413x531 image. *)
Theorem center_fallback_never_fails :
  forall (image : Image) (W H : Z),
    size image = (W, H) ->
    0 < W < 2 ^ 31 -> 2 <= H < 2 ^ 31 ->
    exists box out,
      crop_box init W H None = Ok box /\
      1 <= box_width box /\ 1 <= box_height box /\
      crop_and_resize init image None = Ok out /\
      size out = (413, 531).
Proof.
  intros image W H Hsize HW HH.
  destruct (Z_lt_le_dec (413 * H) (531 * W)) as [Wide | Tall].
  - pose proof (crop_box_center_wide W H ltac:(lia) ltac:(lia) Wide) as E.
    set (nw := 413 * H / 531) in *.
    assert (Hn : 1 <= nw) by (apply Z.div_le_lower_bound; lia).
    do 2 eexists. split; [exact E |].
    split; [unfold box_width; lia |]. split; [unfold box_height; lia |].
    split; [apply (crop_and_resize_ok image W H None _ _ _ _ Hsize E); lia |].
    reflexivity.
  - pose proof (crop_box_center_tall W H ltac:(lia) ltac:(lia) Tall) as E.
    set (nh := 531 * W / 413) in *.
    assert (Hn : 1 <= nh) by (apply Z.div_le_lower_bound; lia).
    do 2 eexists. split; [exact E |].
    split; [unfold box_width; lia |]. split; [unfold box_height; lia |].
    split; [apply (crop_and_resize_ok image W H None _ _ _ _ Hsize E); lia |].
    reflexivity.
Qed.

Lemma center_fallback_never_fails_2x2 :
  exists box out,
    crop_box init 2 2 None = Ok box /\
    1 <= box_width box /\ 1 <= box_height box /\
    crop_and_resize init (mkImage (2, 2) []) None = Ok out /\
    size out = (413, 531).
Proof.
  apply (center_fallback_never_fails (mkImage (2, 2) []) 2 2); [reflexivity | lia | lia].
Defined.

(** X13.  In the centre fallback on a source not wider than the target
    ratio, the rows cut away are split one quarter above and three quarters
    below the crop: the bottom margin is between three times the top margin
    and three times the top margin plus three. *)
Theorem center_fallback_bottom_bias :
  forall W H : Z,
    0 < W < 2 ^ 31 -> 0 < H < 2 ^ 31 -> 531 * W <= 413 * H ->
    exists y0 y1,
      crop_box init W H None = Ok (0, y0, W, y1) /\
      0 <= y0 /\ y0 < y1 /\ y1 <= H /\
      3 * y0 <= H - y1 <= 3 * y0 + 3.
Proof.
  intros W H HW HH Tall.
  pose proof (crop_box_center_tall W H HW ltac:(lia) Tall) as E.
  set (nh := 531 * W / 413) in *.
  assert (Hn : 1 <= nh /\ 413 * nh <= 531 * W).
  { split; [apply Z.div_le_lower_bound; lia |].
    unfold nh. apply Z.mul_div_le. lia. }
  pose proof (Z.div_mod (H - nh) 4 ltac:(lia)).
  pose proof (Z.mod_pos_bound (H - nh) 4 ltac:(lia)).
  do 2 eexists. split; [exact E |]. lia.
Qed.

Lemma center_fallback_bottom_bias_1000x2000 :
  exists y0 y1,
    crop_box init 1000 2000 None = Ok (0, y0, 1000, y1) /\
    0 <= y0 /\ y0 < y1 /\ y1 <= 2000 /\
    3 * y0 <= 2000 - y1 <= 3 * y0 + 3.
Proof.
  apply (center_fallback_bottom_bias 1000 2000); lia.
Defined.

(** ** [crop_and_resize]: the face-anchored branch *)

Section FaceExtras.
Import Binary64 Binary64Facts.
Local Open Scope Q_scope.

(** [photo_height] is [h * 1.3 / 0.7 = 13 h / 7] up to rounding. *)
Lemma photo_height_near h :
  (0 < h < 2 ^ 31)%Z ->
  13 * inject_Z h - (1 # 32768) <= 7 * photo_height_of h /\
  7 * photo_height_of h <= 13 * inject_Z h + (1 # 32768).
Proof.
  intros [h0 h1]. unfold photo_height_of, fdiv, fmul.
  pose proof (of_int_small h ltac:(lia)) as Eh.
  pose proof (inject_Z_lt_pow31 h h1) as Hb.
  assert (Hp : 1 <= inject_Z h)
    by (change 1 with (inject_Z 1); rewrite <- Zle_Qle; lia).
  assert (Ex : of_int h * literal 13 10
               == inject_Z h * (5854679515581645 # 4503599627370496))
    by (rewrite Eh, literal_13_10; reflexivity).
  set (x := of_int h * literal 13 10) in *.
  assert (P32 : pow2 32 == 4294967296) by reflexivity.
  destruct (fl_error x 32 ltac:(lra) ltac:(lra)) as [A1 A2].
  change (pow2 (32 - 1 - prec)) with (1 # 4194304) in A1, A2.
  set (A := fl x) in *.
  assert (Ez : A / literal 70 100 * (3152519739159347 # 4503599627370496) == A).
  { rewrite literal_70_100. field. }
  set (z := A / literal 70 100) in *.
  destruct (fl_error z 32 ltac:(lra) ltac:(lra)) as [B1 B2].
  change (pow2 (32 - 1 - prec)) with (1 # 4194304) in B1, B2.
  split; lra.
Qed.

(** The smallest face, one pixel high, still asks for a crop of more than
    one pixel in each direction. *)
Lemma photo_height_min h : (1 <= h < 2 ^ 31)%Z -> (7 # 4) <= photo_height_of h.
Proof.
  intros [h0 h1].
  destruct (photo_height_near h ltac:(lia)) as [L _].
  assert (Hq : 1 <= inject_Z h)
    by (change 1 with (inject_Z 1); rewrite <- Zle_Qle; exact h0).
  lra.
Qed.

End FaceExtras.

(** X14.  For a valid face box whose ideal crop fits the source
    (0 < W, H < 2^31), [crop_and_resize] never raises: the crop is non-empty,
    its width and height are each within 1 + 2^-22 pixels of [photo_width]
    and [photo_height], and the result is a 413x531 image. *)
Theorem fitting_face_never_fails :
  forall (image : Image) (W H x y w h : Z),
    size image = (W, H) ->
    0 < W < 2 ^ 31 -> 0 < H < 2 ^ 31 ->
    valid_face_box (x, y, w, h) W H ->
    too_large (face_frame default_aspect_ratio W H (x, y, w, h)) W H = false ->
    exists box out,
      crop_box init W H (Some (x, y, w, h)) = Ok box /\
      1 <= box_width box /\ 1 <= box_height box /\
      (Qabs (inject_Z (box_width box) - photo_width_of h) < 4194305 # 4194304)%Q /\
      (Qabs (inject_Z (box_height box) - photo_height_of h) < 4194305 # 4194304)%Q /\
      crop_and_resize init image (Some (x, y, w, h)) = Ok out /\
      size out = (413, 531).
Proof.
  intros image W H x y w h Hsize HW HH Hvalid Hfit.
  destruct Hvalid as (x0 & y0 & w0 & h0 & xw & yh).
  assert (hb : 0 < h < 2 ^ 31) by lia.
  pose proof (crop_box_face W H x y w h Hfit) as E.
  set (f := face_frame default_aspect_ratio W H (x, y, w, h)) in *.
  assert (Eh : photo_height f = photo_height_of h) by reflexivity.
  assert (Ew : photo_width f = photo_width_of h) by reflexivity.
  unfold too_large in Hfit. apply orb_false_iff in Hfit.
  destruct Hfit as [FitW FitH].
  apply Binary64Facts.gtb_false in FitW, FitH. rewrite Ew in FitW. rewrite Eh in FitH.
  pose proof (photo_height_nonneg h hb) as P0.
  pose proof (photo_height_min h ltac:(lia)) as Pm.
  destruct (photo_width_bounds h H HH P0 FitH) as (Q0 & R1 & R2).
  assert (Fx : Binary64.is_float (crop_x0 f)) by apply Binary64Facts.is_float_fl.
  assert (Fy : Binary64.is_float (crop_y0 f)) by apply Binary64Facts.is_float_fl.
  pose proof (clamped_axis (crop_x0 f) (photo_width_of h) W HW Fx Q0 FitW) as AX.
  pose proof (clamped_axis (crop_y0 f) (photo_height_of h) H HH Fy P0 FitH) as AY.
  cbv zeta in AX, AY.
  rewrite Eh, Ew in E.
  change (crop_x f)
    with (Binary64.py_max 0
            (Binary64.py_min (crop_x0 f)
               (Binary64.fsub (Binary64.of_int W) (photo_width_of h)))) in E.
  change (crop_y f)
    with (Binary64.py_max 0
            (Binary64.py_min (crop_y0 f)
               (Binary64.fsub (Binary64.of_int H) (photo_height_of h)))) in E.
  destruct AX as (X0 & X1 & X2 & X3 & X4).
  destruct AY as (Y0 & Y1 & Y2 & Y3 & Y4).
  match type of E with
  | _ = Ok (?a, ?b, ?c, ?d) =>
      set (bx0 := a) in *; set (by0 := b) in *;
      set (bx1 := c) in *; set (by1 := d) in *
  end.
  assert (Wpos : 1 <= bx1 - bx0).
  { assert (T : (inject_Z 0 < inject_Z (bx1 - bx0))%Q)
      by (change (inject_Z 0) with 0%Q; lra).
    rewrite <- Zlt_Qlt in T. lia. }
  assert (Hpos : 1 <= by1 - by0).
  { assert (T : (inject_Z 0 < inject_Z (by1 - by0))%Q)
      by (change (inject_Z 0) with 0%Q; lra).
    rewrite <- Zlt_Qlt in T. lia. }
  do 2 eexists. split; [exact E |].
  split; [exact Wpos |]. split; [exact Hpos |].
  split; [unfold box_width; apply Qabs_Qlt_condition; split; lra |].
  split; [unfold box_height; apply Qabs_Qlt_condition; split; lra |].
  split; [apply (crop_and_resize_ok image W H _ _ _ _ _ Hsize E); lia |].
  reflexivity.
Qed.

Lemma fitting_face_never_fails_scenario :
  exists box out,
    crop_box init 1000 1200 (Some (400, 300, 200, 250)) = Ok box /\
    1 <= box_width box /\ 1 <= box_height box /\
    (Qabs (inject_Z (box_width box) - photo_width_of 250) < 4194305 # 4194304)%Q /\
    (Qabs (inject_Z (box_height box) - photo_height_of 250) < 4194305 # 4194304)%Q /\
    crop_and_resize init (mkImage (1000, 1200) []) (Some (400, 300, 200, 250)) = Ok out /\
    size out = (413, 531).
Proof.
  apply (fitting_face_never_fails (mkImage (1000, 1200) []) 1000 1200 400 300 200 250);
    [reflexivity | lia | lia | cbn; lia | vm_compute; reflexivity].
Defined.

(** X15.  Which faces fit: for a valid face box of height [h] in a source
    of [W x H] pixels (0 < W, H < 2^31), the ideal crop fits when
    [13 h < 7 H] and [13 h < 9 W]; when [13 h > 7 H] or [13 h > 9 W] it does
    not, and [crop_and_resize] raises [NameError].  So a face taller than
    7/13 of the image height, or than 9/13 of its width, cannot be
    processed. *)
Theorem face_height_threshold :
  forall (image : Image) (W H x y w h : Z),
    size image = (W, H) ->
    0 < W < 2 ^ 31 -> 0 < H < 2 ^ 31 ->
    valid_face_box (x, y, w, h) W H ->
    let f := face_frame default_aspect_ratio W H (x, y, w, h) in
    (13 * h < 7 * H -> 13 * h < 9 * W -> too_large f W H = false) /\
    (7 * H < 13 * h \/ 9 * W < 13 * h ->
       too_large f W H = true /\
       crop_and_resize init image (Some (x, y, w, h))
       = Raise (NameError "face_position_ratio")).
Proof.
  intros image W H x y w h Hsize HW HH Hvalid f.
  destruct Hvalid as (x0 & y0 & w0 & h0 & xw & yh).
  assert (hb : 0 < h < 2 ^ 31) by lia.
  assert (Eh : photo_height f = photo_height_of h) by reflexivity.
  assert (Ew : photo_width f = photo_width_of h) by reflexivity.
  destruct (photo_height_near h hb) as [N1 N2].
  pose proof (photo_height_nonneg h hb) as P0.
  assert (Inj : forall a b c d : Z, a * b < c * d ->
                  (inject_Z a * inject_Z b + 1 <= inject_Z c * inject_Z d)%Q).
  { intros a b c d L. rewrite <- !inject_Z_mult.
    change 1%Q with (inject_Z 1). rewrite <- inject_Z_plus, <- Zle_Qle. lia. }
  split.
  - intros Lh Lw. unfold too_large. rewrite Eh, Ew. apply orb_false_iff.
    assert (FitH : (photo_height_of h <= inject_Z H)%Q).
    { pose proof (Inj 13 h 7 H Lh) as T.
      change (inject_Z 13) with 13%Q in T. change (inject_Z 7) with 7%Q in T. lra. }
    destruct (photo_width_bounds h H HH P0 FitH) as (_ & R1 & _).
    split; apply Binary64Facts.gtb_false; [| exact FitH].
    pose proof (Inj 13 h 9 W Lw) as T.
    change (inject_Z 13) with 13%Q in T. change (inject_Z 9) with 9%Q in T. lra.
  - intros Large.
    assert (T : too_large f W H = true).
    { unfold too_large. rewrite Eh, Ew. apply orb_true_iff.
      destruct (Binary64.gtb (photo_height_of h) (inject_Z H)) eqn:G;
        [right; reflexivity |].
      apply Binary64Facts.gtb_false in G.
      destruct (photo_width_bounds h H HH P0 G) as (_ & _ & R2).
      destruct Large as [Lh | Lw].
      - exfalso. pose proof (Inj 7 H 13 h Lh) as T.
        change (inject_Z 13) with 13%Q in T. change (inject_Z 7) with 7%Q in T. lra.
      - left. apply Binary64Facts.gtb_true.
        pose proof (Inj 9 W 13 h Lw) as T.
        change (inject_Z 13) with 13%Q in T. change (inject_Z 9) with 9%Q in T. lra. }
    split; [exact T |].
    exact (crop_and_resize_too_large image W H (x, y, w, h) Hsize T).
Qed.

Lemma face_height_threshold_scenarios :
  too_large (face_frame default_aspect_ratio 1000 1200 (400, 300, 200, 250))
            1000 1200 = false /\
  crop_and_resize init (mkImage (300, 300) []) (Some (50, 50, 200, 200))
  = Raise (NameError "face_position_ratio").
Proof.
  split.
  - destruct (face_height_threshold (mkImage (1000, 1200) []) 1000 1200
                400 300 200 250) as [Fit _];
      [reflexivity | lia | lia | cbn; lia |].
    apply Fit; lia.
  - destruct (face_height_threshold (mkImage (300, 300) []) 300 300
                50 50 200 200) as [_ Large];
      [reflexivity | lia | lia | cbn; lia |].
    apply Large. left. lia.
Defined.

(** ** The crop contains the face *)

Section FaceContained.
Import Binary64 Binary64Facts.
Local Open Scope Q_scope.

(** The rounding error bound for either sign. *)
Lemma fl_error_signed x k :
  - pow2 k < x -> x < pow2 k ->
  x - pow2 (k - 1 - prec) <= fl x /\ fl x <= x + pow2 (k - 1 - prec).
Proof.
  intros L U. destruct (Qlt_le_dec x 0) as [N | P].
  - destruct (fl_error (- x) k ltac:(lra) ltac:(lra)) as [A B].
    rewrite fl_opp in A, B. split; lra.
  - apply fl_error; assumption.
Qed.

Lemma literal_3_10 : literal 3 10 = (5404319552844595 # 18014398509481984).
Proof. vm_compute. reflexivity. Qed.

(** The clamp moves the origin up to at most [max(0, c0)], and never below
    both [c0] and the upper bound. *)
Lemma clamp_sides c0 D :
  let c := py_max 0 (py_min c0 D) in
  (forall X, 0 <= X -> c0 <= X -> c <= X) /\ (c0 <= c \/ D <= c).
Proof.
  unfold py_max, py_min.
  destruct (ltb D c0) eqn:L.
  - apply ltb_true in L. destruct (gtb D 0) eqn:G.
    + split; [intros X HX HC; lra | right; lra].
    + apply gtb_false in G. split; [intros X HX HC; lra | right; exact G].
  - apply ltb_false in L. destruct (gtb c0 0) eqn:G.
    + split; [intros X HX HC; lra | left; lra].
    + apply gtb_false in G. split; [intros X HX HC; lra | left; exact G].
Qed.

(** One axis: if the unclamped crop interval [[c0, c0 + p]] covers the face
    interval [[lo, hi]] and the face ends before the last pixel, the pixel
    interval of the clamped crop covers it too. *)
Lemma clamped_axis_covers (c0 p : Q) (N lo hi : Z) :
  (0 < N < 2 ^ 31)%Z -> (0 <= lo)%Z -> (lo <= hi)%Z -> (hi < N)%Z ->
  0 <= p -> p <= inject_Z N ->
  c0 <= inject_Z lo -> inject_Z hi <= c0 + p ->
  let c := py_max 0 (py_min c0 (fsub (of_int N) p)) in
  (to_int c <= lo)%Z /\ (hi <= to_int (fadd c p))%Z.
Proof.
  intros [N0 N1] L0 LH HN Hp HpN Clo Chi.
  pose proof (inject_Z_lt_pow31 N N1) as Nb.
  pose proof (of_int_small N ltac:(lia)) as EN.
  pose proof (inject_Z_nonneg lo L0) as Lq.
  assert (HNq : inject_Z hi + 1 <= inject_Z N).
  { change 1 with (inject_Z 1). rewrite <- inject_Z_plus, <- Zle_Qle. lia. }
  assert (P31 : pow2 31 == 2147483648) by reflexivity.
  assert (P32 : pow2 32 == 4294967296) by reflexivity.
  set (D := fsub (of_int N) p).
  assert (HD : 0 <= D /\ inject_Z N - p - (1 # 8388608) <= D
               /\ D <= inject_Z N - p + (1 # 8388608)).
  { unfold D, fsub.
    assert (R : 0 <= of_int N - p /\ of_int N - p < pow2 31) by (split; lra).
    destruct R as [R0 R1]. destruct (fl_error _ 31 R0 R1) as [A B].
    change (pow2 (31 - 1 - prec)) with (1 # 8388608) in A, B.
    split; [apply fl_nonneg; exact R0 | split; lra]. }
  destruct HD as (D0 & D1 & D2).
  destruct (clamp_bounds c0 D D0) as (C0 & C1 & _).
  destruct (clamp_sides c0 D) as (Up & Low).
  intros c. fold D in c. fold c in C0, C1, Up, Low.
  pose proof (Up (inject_Z lo) Lq Clo) as Cle.
  destruct (to_int_bounds c C0) as (Lc & Uc & Zc).
  split.
  - assert (T : inject_Z (to_int c) <= inject_Z lo) by lra.
    rewrite <- Zle_Qle in T. exact T.
  - assert (Sum : inject_Z hi <= c + p) by (destruct Low; lra).
    assert (F : inject_Z hi <= fadd c p).
    { unfold fadd. apply fl_ge_float; [apply is_float_small_int; lia | exact Sum]. }
    assert (Fn : 0 <= fadd c p).
    { pose proof (inject_Z_nonneg hi ltac:(lia)). lra. }
    destruct (to_int_bounds (fadd c p) Fn) as (Ls & Us & Zs).
    assert (T : inject_Z hi < inject_Z (to_int (fadd c p) + 1)).
    { rewrite inject_Z_plus. change (inject_Z 1) with 1. lra. }
    rewrite <- Zlt_Qlt in T. lia.
Qed.

(** Integer halves, on rationals. *)
Lemma half_bounds n :
  2 * inject_Z (n / 2) <= inject_Z n /\ inject_Z n <= 2 * inject_Z (n / 2) + 1.
Proof.
  pose proof (Z.div_mod n 2 ltac:(lia)) as D.
  pose proof (Z.mod_pos_bound n 2 ltac:(lia)) as M.
  assert (A : (2 * (n / 2) <= n)%Z) by lia.
  assert (B : (n <= 2 * (n / 2) + 1)%Z) by lia.
  rewrite Zle_Qle, inject_Z_mult in A.
  rewrite Zle_Qle, inject_Z_plus, inject_Z_mult in B.
  change (inject_Z 2) with 2 in *. change (inject_Z 1) with 1 in *.
  split; assumption.
Qed.

(** Before the clamp, the crop interval covers the face horizontally when
    [9 w + 10 <= 13 h]. *)
Lemma crop_x0_covers W H x y w h :
  (0 < W < 2 ^ 31)%Z -> (0 < H < 2 ^ 31)%Z ->
  valid_face_box (x, y, w, h) W H ->
  photo_width_of h <= inject_Z W -> photo_height_of h <= inject_Z H ->
  (9 * w + 10 <= 13 * h)%Z ->
  let f := face_frame default_aspect_ratio W H (x, y, w, h) in
  crop_x0 f <= inject_Z x /\ inject_Z (x + w) <= crop_x0 f + photo_width_of h.
Proof.
  intros HW HH (x0 & y0 & w0 & h0 & xw & yh) FitW FitH Hwh f.
  assert (hb : (0 < h < 2 ^ 31)%Z) by lia.
  destruct (photo_height_near h hb) as [N1 N2].
  pose proof (photo_height_nonneg h hb) as P0.
  destruct (photo_width_bounds h H HH P0 FitH) as (Q0 & R1 & R2).
  change (crop_x0 f)
    with (fsub (of_int (x + w / 2)) (fdiv (photo_width_of h) 2)).
  set (pw := photo_width_of h) in *. set (ph := photo_height_of h) in *.
  pose proof (inject_Z_lt_pow31 W (proj2 HW)) as Wb.
  assert (P31 : pow2 31 == 2147483648) by reflexivity.
  destruct (half_bounds w) as [Hw1 Hw2].
  pose proof (Z.div_pos w 2 ltac:(lia) ltac:(lia)) as Hwh0.
  assert (Whalf : (w / 2 <= w)%Z) by (apply Z.div_le_upper_bound; lia).
  pose proof (of_int_small (x + w / 2) ltac:(lia)) as Ec.
  rewrite inject_Z_plus in Ec.
  assert (Xq : 0 <= inject_Z x) by (apply inject_Z_nonneg; lia).
  assert (WHq : 0 <= inject_Z (w / 2)) by (apply inject_Z_nonneg; lia).
  assert (XWq : inject_Z x + inject_Z w <= inject_Z W).
  { rewrite <- inject_Z_plus, <- Zle_Qle. exact xw. }
  assert (Hyp : 9 * inject_Z w + 10 <= 13 * inject_Z h).
  { rewrite Zle_Qle, inject_Z_plus, !inject_Z_mult in Hwh. exact Hwh. }
  unfold fsub, fdiv.
  assert (Ehv : pw / 2 * 2 == pw) by field.
  set (hv := pw / 2) in *.
  destruct (fl_error hv 31 ltac:(lra) ltac:(lra)) as [A1 A2].
  change (pow2 (31 - 1 - prec)) with (1 # 8388608) in A1, A2.
  set (u := of_int (x + w / 2) - fl hv).
  assert (Eu : u == inject_Z x + inject_Z (w / 2) - fl hv)
    by (unfold u; rewrite Ec; reflexivity).
  destruct (fl_error_signed u 31 ltac:(lra) ltac:(lra)) as [B1 B2].
  change (pow2 (31 - 1 - prec)) with (1 # 8388608) in B1, B2.
  rewrite inject_Z_plus. split; lra.
Qed.

(** Before the clamp, the crop interval covers the face vertically when the
    face is at least four pixels high. *)
Lemma crop_y0_covers W H x y w h :
  (0 < W < 2 ^ 31)%Z -> (0 < H < 2 ^ 31)%Z ->
  valid_face_box (x, y, w, h) W H ->
  photo_height_of h <= inject_Z H ->
  (4 <= h)%Z ->
  let f := face_frame default_aspect_ratio W H (x, y, w, h) in
  crop_y0 f <= inject_Z y /\ inject_Z (y + h) <= crop_y0 f + photo_height_of h.
Proof.
  intros HW HH (x0 & y0 & w0 & h0 & xw & yh) FitH H4 f.
  assert (hb : (0 < h < 2 ^ 31)%Z) by lia.
  destruct (photo_height_near h hb) as [N1 N2].
  pose proof (photo_height_nonneg h hb) as P0.
  change (crop_y0 f)
    with (fsub (fsub (of_int (y + h / 2)) (fmul (of_int h) (literal 3 10)))
               (fdiv (photo_height_of h) 2)).
  set (ph := photo_height_of h) in *.
  pose proof (inject_Z_lt_pow31 H (proj2 HH)) as Hb.
  assert (P31 : pow2 31 == 2147483648) by reflexivity.
  destruct (half_bounds h) as [Hh1 Hh2].
  pose proof (Z.div_pos h 2 ltac:(lia) ltac:(lia)) as Hhh0.
  assert (Hhalf : (h / 2 <= h)%Z) by (apply Z.div_le_upper_bound; lia).
  pose proof (of_int_small (y + h / 2) ltac:(lia)) as Ec.
  rewrite inject_Z_plus in Ec.
  pose proof (of_int_small h ltac:(lia)) as Eh.
  assert (Yq : 0 <= inject_Z y) by (apply inject_Z_nonneg; lia).
  assert (HHq : 0 <= inject_Z (h / 2)) by (apply inject_Z_nonneg; lia).
  assert (H4q : 4 <= inject_Z h)
    by (change 4 with (inject_Z 4); rewrite <- Zle_Qle; exact H4).
  assert (YHq : inject_Z y + inject_Z h <= inject_Z H).
  { rewrite <- inject_Z_plus, <- Zle_Qle. exact yh. }
  unfold fsub, fdiv, fmul.
  (* the offset, 0.3 h *)
  assert (Eo : of_int h * literal 3 10
               == inject_Z h * (5404319552844595 # 18014398509481984))
    by (rewrite Eh, literal_3_10; reflexivity).
  set (o := of_int h * literal 3 10) in *.
  destruct (fl_error o 31 ltac:(lra) ltac:(lra)) as [O1 O2].
  change (pow2 (31 - 1 - prec)) with (1 # 8388608) in O1, O2.
  (* the crop centre *)
  set (v := of_int (y + h / 2) - fl o).
  assert (Ev : v == inject_Z y + inject_Z (h / 2) - fl o)
    by (unfold v; rewrite Ec; reflexivity).
  destruct (fl_error_signed v 31 ltac:(lra) ltac:(lra)) as [V1 V2].
  change (pow2 (31 - 1 - prec)) with (1 # 8388608) in V1, V2.
  (* half the photo height *)
  assert (Ehv : ph / 2 * 2 == ph) by field.
  set (hv := ph / 2) in *.
  destruct (fl_error hv 31 ltac:(lra) ltac:(lra)) as [A1 A2].
  change (pow2 (31 - 1 - prec)) with (1 # 8388608) in A1, A2.
  (* the crop origin *)
  set (t := fl v - fl hv).
  assert (Et : t == fl v - fl hv) by reflexivity.
  destruct (fl_error_signed t 31 ltac:(lra) ltac:(lra)) as [B1 B2].
  change (pow2 (31 - 1 - prec)) with (1 # 8388608) in B1, B2.
  rewrite inject_Z_plus. split; lra.
Qed.

End FaceContained.

(** X16.  The crop contains the face: for a valid face box at least four
    pixels high with [9 w + 10 <= 13 h] that ends before the right and the
    bottom edge of the source, and whose ideal crop fits the source
    (0 < W, H < 2^31), the crop rectangle covers the whole face box, also
    after the boundary clamp. *)
Theorem crop_contains_face :
  forall (W H x y w h : Z),
    0 < W < 2 ^ 31 -> 0 < H < 2 ^ 31 ->
    valid_face_box (x, y, w, h) W H ->
    x + w < W -> y + h < H ->
    4 <= h -> 9 * w + 10 <= 13 * h ->
    too_large (face_frame default_aspect_ratio W H (x, y, w, h)) W H = false ->
    exists box,
      crop_box init W H (Some (x, y, w, h)) = Ok box /\
      within (face_rect (x, y, w, h)) box.
Proof.
  intros W H x y w h HW HH Hvalid Hr Hb H4 Hwh Hfit.
  pose proof (crop_box_face W H x y w h Hfit) as E.
  set (f := face_frame default_aspect_ratio W H (x, y, w, h)) in *.
  assert (Eh : photo_height f = photo_height_of h) by reflexivity.
  assert (Ew : photo_width f = photo_width_of h) by reflexivity.
  unfold too_large in Hfit. apply orb_false_iff in Hfit.
  destruct Hfit as [FitW FitH].
  apply Binary64Facts.gtb_false in FitW, FitH. rewrite Ew in FitW. rewrite Eh in FitH.
  destruct (crop_x0_covers W H x y w h HW HH Hvalid FitW FitH Hwh) as [Cx1 Cx2].
  destruct (crop_y0_covers W H x y w h HW HH Hvalid FitH H4) as [Cy1 Cy2].
  fold f in Cx1, Cx2, Cy1, Cy2.
  destruct Hvalid as (x0 & y0 & w0 & h0 & xw & yh).
  assert (hb : 0 < h < 2 ^ 31) by lia.
  pose proof (photo_height_nonneg h hb) as P0.
  destruct (photo_width_bounds h H HH P0 FitH) as (Q0 & _ & _).
  pose proof (clamped_axis_covers (crop_x0 f) (photo_width_of h) W x (x + w)
                HW x0 ltac:(lia) Hr Q0 FitW Cx1 Cx2) as AX.
  pose proof (clamped_axis_covers (crop_y0 f) (photo_height_of h) H y (y + h)
                HH y0 ltac:(lia) Hb P0 FitH Cy1 Cy2) as AY.
  cbv zeta in AX, AY.
  rewrite Eh, Ew in E.
  change (crop_x f)
    with (Binary64.py_max 0
            (Binary64.py_min (crop_x0 f)
               (Binary64.fsub (Binary64.of_int W) (photo_width_of h)))) in E.
  change (crop_y f)
    with (Binary64.py_max 0
            (Binary64.py_min (crop_y0 f)
               (Binary64.fsub (Binary64.of_int H) (photo_height_of h)))) in E.
  eexists. split; [exact E |].
  unfold within, face_rect. lia.
Qed.

Lemma crop_contains_face_scenario :
  exists box,
    crop_box init 1000 1200 (Some (400, 300, 200, 250)) = Ok box /\
    within (face_rect (400, 300, 200, 250)) box.
Proof.
  apply (crop_contains_face 1000 1200 400 300 200 250);
    [lia | lia | cbn; lia | lia | lia | lia | lia | vm_compute; reflexivity].
Defined.

(** ** No face detected *)

Lemma center_crop_and_resize_ok image W H :
  size image = (W, H) -> 0 < W < 2 ^ 31 -> 2 <= H < 2 ^ 31 ->
  crop_and_resize init image None = Ok (mkImage (413, 531) []).
Proof.
  intros Hsize HW HH.
  destruct (Z_lt_le_dec (413 * H) (531 * W)) as [Wide | Tall].
  - pose proof (crop_box_center_wide W H ltac:(lia) ltac:(lia) Wide) as E.
    assert (Hn : 1 <= 413 * H / 531) by (apply Z.div_le_lower_bound; lia).
    apply (crop_and_resize_ok image W H None _ _ _ _ Hsize E); lia.
  - pose proof (crop_box_center_tall W H ltac:(lia) ltac:(lia) Tall) as E.
    assert (Hn : 1 <= 531 * W / 413) by (apply Z.div_le_lower_bound; lia).
    apply (crop_and_resize_ok image W H None _ _ _ _ Hsize E); lia.
Qed.

(** X17.  A photo in which neither detection finds a face is still
    processed.  For every decoded image of [W x H] pixels (0 < W < 2^31,
    2 <= H < 2^31) and the answer [detect_face] gives on two empty
    detections, the geometry never fails: [process_photo] succeeds exactly
    when the output directory is ready, the detector does not raise, the
    output path can be written and, with the print sheet requested, the
    path of the sheet can be written too.  A run that succeeds has saved a
    413x531 primary photo at the output path. *)
Theorem no_face_still_processed :
  forall (image : Image) (W H : Z) run fs output_path remove_bg create_print,
    size image = (W, H) -> 0 < W < 2 ^ 31 -> 2 <= H < 2 ^ 31 ->
    opened run = Ok image ->
    detected run = detect_face [] [] ->
    let outcome := process_photo init run fs output_path remove_bg create_print in
    (fst outcome = true <->
       output_dir_ready run = Ok tt /\
       grayscale run = Ok tt /\
       writable run output_path = true /\
       (create_print = true ->
        writable run (replace output_path ".jpg" "_4x6_print.jpg") = true)) /\
    (fst outcome = true ->
       exists primary,
         size primary = (413, 531) /\ In (output_path, primary) (snd outcome)).
Proof.
  intros image W H run fs path remove_bg create_print Hsize HW HH Hopen Hface
         outcome.
  pose proof (center_crop_and_resize_ok image W H Hsize HW HH) as C.
  destruct (create_4x6_print_init (mkImage (413, 531) [Paste (413, 531) (0, 0)]))
    as [sheet Esheet].
  unfold outcome, process_photo. rewrite Hopen, Hface.
  change (detect_face [] []) with (@None FaceBox).
  destruct (output_dir_ready run) as [[] | e1]; cbn [bind];
    [| split; [split; [discriminate | intros (A & _); discriminate A]
              | discriminate]].
  destruct (grayscale run) as [[] | e2]; cbn [bind];
    [| split; [split; [discriminate | intros (_ & A & _); discriminate A]
              | discriminate]].
  replace (if remove_bg then remove_background image else image) with image
    by (destruct remove_bg; reflexivity).
  rewrite C. cbn [bind].
  change (add_white_background (mkImage (413, 531) []))
    with (Ok (mkImage (413, 531) [Paste (413, 531) (0, 0)])).
  cbn [bind]. unfold enhance_image, save.
  destruct (writable run path);
    [| split; [split; [discriminate | intros (_ & _ & A & _); discriminate A]
              | discriminate]].
  destruct create_print.
  - rewrite Esheet. cbn [bind].
    destruct (writable run (replace path ".jpg" "_4x6_print.jpg")); cbn [fst snd].
    + split; [split; [intros _; repeat split | reflexivity] |].
      intros _. eexists. split; [| right; left; reflexivity]. reflexivity.
    + split; [split; [discriminate |] | discriminate].
      intros (_ & _ & _ & A). specialize (A eq_refl). discriminate A.
  - cbn [fst snd].
    split; [split; [intros _; repeat split; discriminate | reflexivity] |].
    intros _. eexists. split; [| left; reflexivity]. reflexivity.
Qed.

Lemma no_face_still_processed_2000x1000 :
  let run := cooperative (mkImage (2000, 1000) []) (detect_face [] []) in
  let outcome := process_photo init run [] "photo_visa.jpg" true true in
  fst outcome = true /\
  exists primary,
    size primary = (413, 531) /\
    In ("photo_visa.jpg"%string, primary) (snd outcome).
Proof.
  intros run outcome.
  destruct (no_face_still_processed (mkImage (2000, 1000) []) 2000 1000 run []
              "photo_visa.jpg"%string true true) as [Iff Saved];
    [reflexivity | lia | lia | reflexivity | reflexivity |].
  assert (Hok : fst outcome = true)
    by (apply Iff; repeat split; reflexivity).
  split; [exact Hok | exact (Saved Hok)].
Defined.

(** ** The default output name *)

Section DefaultOutput.
Local Open Scope string_scope.

Lemma rfind_from_ge c s : forall i last, (last < i)%Z -> (last <= rfind_from c s i last)%Z.
Proof.
  induction s as [| a s IH]; intros i last H; cbn [rfind_from]; [lia |].
  destruct (Ascii.eqb a c).
  - pose proof (IH (i + 1)%Z i ltac:(lia)). lia.
  - apply IH. lia.
Qed.

(** After the last occurrence of [c] there is no [c]. *)
Lemma drop_after_rfind c s :
  forall i last, (last < i)%Z ->
    contains c (drop (Z.to_nat (rfind_from c s i last + 1 - i)) s) = false.
Proof.
  induction s as [| a s IH]; intros i last H.
  - cbn [rfind_from]. destruct (Z.to_nat _); reflexivity.
  - cbn [rfind_from].
    set (last' := if Ascii.eqb a c then i else last).
    assert (H' : (last' < i + 1)%Z) by (unfold last'; destruct (Ascii.eqb a c); lia).
    pose proof (IH (i + 1)%Z last' H') as Hd.
    pose proof (rfind_from_ge c s (i + 1)%Z last' H') as Hge.
    set (r := rfind_from c s (i + 1)%Z last') in *.
    destruct (Z_lt_le_dec r i) as [Lt | Ge].
    + replace (Z.to_nat (r + 1 - i)) with 0%nat by lia.
      replace (Z.to_nat (r + 1 - (i + 1))) with 0%nat in Hd by lia.
      cbn [drop] in *. cbn [contains]. rewrite Hd.
      unfold last' in Hge. destruct (Ascii.eqb a c); [lia | reflexivity].
    + replace (Z.to_nat (r + 1 - i)) with (S (Z.to_nat (r + 1 - (i + 1)))) by lia.
      cbn [drop]. exact Hd.
Qed.

Lemma contains_take c n s : contains c s = false -> contains c (take n s) = false.
Proof.
  revert s. induction n as [| n IH]; intros s H; [reflexivity |].
  destruct s as [| a s]; [reflexivity |].
  cbn [contains take] in *. apply orb_false_iff in H. destruct H as [H1 H2].
  rewrite H1, (IH s H2). reflexivity.
Qed.

Lemma prefix_refl s : prefix s s = true.
Proof.
  induction s as [| a s IH]; [reflexivity |].
  cbn [prefix]. destruct (ascii_dec a a); [exact IH | contradiction].
Qed.

Lemma prefix_take n s : prefix (take n s) s = true.
Proof.
  revert s. induction n as [| n IH]; intros s; [destruct s; reflexivity |].
  destruct s as [| a s]; [reflexivity |].
  cbn [take prefix]. destruct (ascii_dec a a); [apply IH | contradiction].
Qed.

Lemma take_drop n s : take n s ++ drop n s = s.
Proof.
  revert s. induction n as [| n IH]; intros s; [reflexivity |].
  destruct s as [| a s]; [reflexivity |].
  cbn [take drop append]. rewrite IH. reflexivity.
Qed.

Lemma basename_no_slash p : contains "/" (basename p) = false.
Proof.
  unfold basename, slice_from, rfind.
  pose proof (drop_after_rfind "/" p 0%Z (-1)%Z ltac:(lia)) as H.
  replace (rfind_from "/" p 0 (-1) + 1 - 0)%Z
    with (rfind_from "/" p 0 (-1) + 1)%Z in H by lia.
  exact H.
Qed.

Lemma splitext_root p :
  prefix (fst (splitext p)) p = true /\
  (contains "/" p = false -> contains "/" (fst (splitext p)) = false).
Proof.
  unfold splitext.
  destruct (Z.ltb (rfind "/" p) (rfind "." p));
    [destruct (all_dots _) |]; cbn [fst].
  - split; [apply prefix_refl | auto].
  - split; [apply prefix_take | apply contains_take].
  - split; [apply prefix_refl | auto].
Qed.

End DefaultOutput.

(** X18.  The default output file always lies directly in [output/]: the
    input's file name is what follows its last [/], and the output is
    [output/<name>_visa.jpg] where [<name>] is a prefix of that file name
    and contains no [/]. *)
Theorem default_output_in_output_dir :
  forall input_path : string,
    exists dir name,
      input_path = (dir ++ basename input_path)%string /\
      contains "/" (basename input_path) = false /\
      prefix name (basename input_path) = true /\
      contains "/" name = false /\
      default_output input_path = ("output/" ++ name ++ "_visa.jpg")%string.
Proof.
  intros p.
  exists (take (Z.to_nat (rfind "/" p + 1)) p), (fst (splitext (basename p))).
  pose proof (basename_no_slash p) as B.
  destruct (splitext_root (basename p)) as [P C].
  split; [unfold basename, slice_from; symmetry; apply take_drop |].
  split; [exact B |]. split; [exact P |]. split; [exact (C B) | reflexivity].
Qed.

Example default_output_examples :
  default_output "photos/2024/me.final.png" = "output/me.final_visa.jpg"%string /\
  default_output "portrait" = "output/portrait_visa.jpg"%string /\
  default_output "scans/.hidden" = "output/.hidden_visa.jpg"%string.
Proof. repeat split; reflexivity. Qed.

(** ** Where the crop is centred *)

Section CropCentre.
Import Binary64 Binary64Facts.
Local Open Scope Q_scope.

(** The unclamped origins: [crop_x0] is [face_center_x - photo_width / 2]
    and [crop_y0] is [face_center_y - 0.3 h - photo_height / 2], up to
    rounding. *)
Lemma crop_origin_near W H x y w h :
  (0 < W < 2 ^ 31)%Z -> (0 < H < 2 ^ 31)%Z ->
  valid_face_box (x, y, w, h) W H ->
  photo_width_of h <= inject_Z W -> photo_height_of h <= inject_Z H ->
  let f := face_frame default_aspect_ratio W H (x, y, w, h) in
  Qabs (2 * crop_x0 f - (2 * inject_Z (x + w / 2) - photo_width_of h))
  <= (1 # 1048576) /\
  Qabs (10 * crop_y0 f
        - (10 * inject_Z (y + h / 2) - 3 * inject_Z h - 5 * photo_height_of h))
  <= (1 # 131072).
Proof.
  intros HW HH (x0 & y0 & w0 & h0 & xw & yh) FitW FitH f.
  assert (hb : (0 < h < 2 ^ 31)%Z) by lia.
  pose proof (photo_height_nonneg h hb) as P0.
  destruct (photo_width_bounds h H HH P0 FitH) as (Q0 & _ & _).
  change (crop_x0 f)
    with (fsub (of_int (x + w / 2)) (fdiv (photo_width_of h) 2)).
  change (crop_y0 f)
    with (fsub (fsub (of_int (y + h / 2)) (fmul (of_int h) (literal 3 10)))
               (fdiv (photo_height_of h) 2)).
  set (pw := photo_width_of h) in *. set (ph := photo_height_of h) in *.
  pose proof (inject_Z_lt_pow31 W (proj2 HW)) as Wb.
  pose proof (inject_Z_lt_pow31 H (proj2 HH)) as Hb.
  assert (P31 : pow2 31 == 2147483648) by reflexivity.
  pose proof (Z.div_pos w 2 ltac:(lia) ltac:(lia)) as Hwh0.
  assert (Whalf : (w / 2 <= w)%Z) by (apply Z.div_le_upper_bound; lia).
  pose proof (Z.div_pos h 2 ltac:(lia) ltac:(lia)) as Hhh0.
  assert (Hhalf : (h / 2 <= h)%Z) by (apply Z.div_le_upper_bound; lia).
  pose proof (of_int_small (x + w / 2) ltac:(lia)) as Ecx.
  pose proof (of_int_small (y + h / 2) ltac:(lia)) as Ecy.
  pose proof (of_int_small h ltac:(lia)) as Eh.
  assert (Wlt : (w / 2 < w)%Z) by (apply Z.div_lt_upper_bound; lia).
  assert (Hlt : (h / 2 < h)%Z) by (apply Z.div_lt_upper_bound; lia).
  assert (Cx : 0 <= inject_Z (x + w / 2) /\ inject_Z (x + w / 2) + 1 <= inject_Z W).
  { split; [apply inject_Z_nonneg; lia |].
    change 1 with (inject_Z 1). rewrite <- inject_Z_plus, <- Zle_Qle. lia. }
  assert (Cy : 0 <= inject_Z (y + h / 2) /\ inject_Z (y + h / 2) + 1 <= inject_Z H).
  { split; [apply inject_Z_nonneg; lia |].
    change 1 with (inject_Z 1). rewrite <- inject_Z_plus, <- Zle_Qle. lia. }
  assert (Hq : 0 < inject_Z h /\ inject_Z h <= inject_Z H).
  { split; [apply inject_Z_pos; lia | rewrite <- Zle_Qle; lia]. }
  unfold fsub, fdiv, fmul.
  split.
  - assert (Ehv : pw / 2 * 2 == pw) by field.
    set (hv := pw / 2) in *.
    destruct (fl_error hv 31 ltac:(lra) ltac:(lra)) as [A1 A2].
    change (pow2 (31 - 1 - prec)) with (1 # 8388608) in A1, A2.
    set (u := of_int (x + w / 2) - fl hv).
    assert (Eu : u == inject_Z (x + w / 2) - fl hv)
      by (unfold u; rewrite Ecx; reflexivity).
    destruct (fl_error_signed u 31 ltac:(lra) ltac:(lra)) as [B1 B2].
    change (pow2 (31 - 1 - prec)) with (1 # 8388608) in B1, B2.
    apply Qabs_Qle_condition. split; lra.
  - assert (Eo : of_int h * literal 3 10
                 == inject_Z h * (5404319552844595 # 18014398509481984))
      by (rewrite Eh, literal_3_10; reflexivity).
    set (o := of_int h * literal 3 10) in *.
    destruct (fl_error o 31 ltac:(lra) ltac:(lra)) as [O1 O2].
    change (pow2 (31 - 1 - prec)) with (1 # 8388608) in O1, O2.
    set (v := of_int (y + h / 2) - fl o).
    assert (Ev : v == inject_Z (y + h / 2) - fl o)
      by (unfold v; rewrite Ecy; reflexivity).
    destruct (fl_error_signed v 31 ltac:(lra) ltac:(lra)) as [V1 V2].
    change (pow2 (31 - 1 - prec)) with (1 # 8388608) in V1, V2.
    assert (Ehv : ph / 2 * 2 == ph) by field.
    set (hv := ph / 2) in *.
    destruct (fl_error hv 31 ltac:(lra) ltac:(lra)) as [A1 A2].
    change (pow2 (31 - 1 - prec)) with (1 # 8388608) in A1, A2.
    set (t := fl v - fl hv).
    assert (Et : t == fl v - fl hv) by reflexivity.
    destruct (fl_error_signed t 31 ltac:(lra) ltac:(lra)) as [B1 B2].
    change (pow2 (31 - 1 - prec)) with (1 # 8388608) in B1, B2.
    apply Qabs_Qle_condition. split; lra.
Qed.

(** One axis when the clamp does not act: the pixel interval starts within
    one pixel below the origin and spans the extent. *)
Lemma unclamped_axis (c0 p : Q) (N : Z) :
  (0 < N < 2 ^ 31)%Z ->
  0 <= p -> 0 <= c0 -> c0 + p + (1 # 4194304) <= inject_Z N ->
  let c := py_max 0 (py_min c0 (fsub (of_int N) p)) in
  c0 - 1 < inject_Z (to_int c) /\ inject_Z (to_int c) <= c0 /\
  c0 + p - (4194305 # 4194304) < inject_Z (to_int (fadd c p)) /\
  inject_Z (to_int (fadd c p)) <= c0 + p + (1 # 4194304).
Proof.
  intros [N0 N1] Hp Hc0 Hroom.
  pose proof (inject_Z_lt_pow31 N N1) as Nb.
  pose proof (of_int_small N ltac:(lia)) as EN.
  assert (P31 : pow2 31 == 2147483648) by reflexivity.
  assert (P32 : pow2 32 == 4294967296) by reflexivity.
  set (D := fsub (of_int N) p).
  assert (HD : 0 <= D /\ inject_Z N - p - (1 # 8388608) <= D).
  { unfold D, fsub.
    assert (R : 0 <= of_int N - p /\ of_int N - p < pow2 31) by (split; lra).
    destruct R as [R0 R1]. destruct (fl_error _ 31 R0 R1) as [A B].
    change (pow2 (31 - 1 - prec)) with (1 # 8388608) in A, B.
    split; [apply fl_nonneg; exact R0 | lra]. }
  destruct HD as (D0 & D1).
  destruct (clamp_bounds c0 D D0) as (C0 & C1 & _).
  destruct (clamp_sides c0 D) as (Up & Low).
  intros c. fold D in c. fold c in C0, C1, Up, Low.
  pose proof (Up c0 Hc0 ltac:(lra)) as Cle.
  assert (Cge : c0 <= c) by (destruct Low; lra).
  destruct (to_int_bounds c C0) as (Lc & Uc & _).
  assert (R : 0 <= c + p /\ c + p < pow2 32) by (split; lra).
  destruct R as [R0 R1]. destruct (fl_error _ 32 R0 R1) as [S1 S2].
  change (pow2 (32 - 1 - prec)) with (1 # 4194304) in S1, S2.
  fold (fadd c p) in S1, S2.
  assert (Fn : 0 <= fadd c p) by (unfold fadd; apply fl_nonneg; lra).
  destruct (to_int_bounds (fadd c p) Fn) as (Ls & Us & _).
  repeat split; lra.
Qed.

End CropCentre.

(** X19.  When the boundary clamp does not act (the ideal crop around the
    face centre has room on every side), the crop is centred on the face:
    horizontally its midpoint is at most one pixel left of
    [face_center_x = x + w // 2], and vertically at most one pixel above
    the point [0.3 h] above [face_center_y = y + h // 2]. *)
Theorem unclamped_crop_centred_on_face :
  forall (W H x y w h : Z),
    0 < W < 2 ^ 31 -> 0 < H < 2 ^ 31 ->
    valid_face_box (x, y, w, h) W H ->
    13 * h + 1 <= 18 * (x + w / 2) ->
    18 * (x + w / 2) + 13 * h + 1 <= 18 * W ->
    86 * h + 1 <= 70 * (y + h / 2) ->
    70 * (y + h / 2) + 44 * h + 1 <= 70 * H ->
    exists x0 y0 x1 y1,
      crop_box init W H (Some (x, y, w, h)) = Ok (x0, y0, x1, y1) /\
      2 * (x + w / 2) - 2 <= x0 + x1 <= 2 * (x + w / 2) /\
      10 * (y + h / 2) - 3 * h - 10 <= 5 * (y0 + y1) <= 10 * (y + h / 2) - 3 * h.
Proof.
  intros W H x y w h HW HH Hvalid Hl Hr Ht Hb.
  assert (Hv := Hvalid). destruct Hv as (x0 & y0 & w0 & h0 & xw & yh).
  assert (hb : 0 < h < 2 ^ 31) by lia.
  pose proof (Z.div_pos w 2 ltac:(lia) ltac:(lia)) as Hwh0.
  assert (Whalf : w / 2 <= w) by (apply Z.div_le_upper_bound; lia).
  pose proof (Z.div_pos h 2 ltac:(lia) ltac:(lia)) as Hhh0.
  assert (Hhalf : h / 2 <= h) by (apply Z.div_le_upper_bound; lia).
  set (cx := x + w / 2) in *. set (cy := y + h / 2) in *.
  destruct (photo_height_near h hb) as [N1 N2].
  pose proof (photo_height_nonneg h hb) as P0.
  assert (Hlq := Hl). assert (Hrq := Hr). assert (Htq := Ht). assert (Hbq := Hb).
  rewrite Zle_Qle in Hlq, Hrq, Htq, Hbq.
  rewrite ?inject_Z_plus, ?inject_Z_mult in Hlq.
  rewrite ?inject_Z_plus, ?inject_Z_mult in Hrq.
  rewrite ?inject_Z_plus, ?inject_Z_mult in Htq.
  rewrite ?inject_Z_plus, ?inject_Z_mult in Hbq.
  change (inject_Z 13) with 13%Q in *. change (inject_Z 18) with 18%Q in *.
  change (inject_Z 86) with 86%Q in *. change (inject_Z 70) with 70%Q in *.
  change (inject_Z 44) with 44%Q in *. change (inject_Z 1) with 1%Q in *.
  assert (Hq : (0 < inject_Z h)%Q) by (apply inject_Z_pos; lia).
  assert (Cxq : (0 <= inject_Z cx)%Q) by (apply inject_Z_nonneg; unfold cx; lia).
  assert (Cyq : (0 <= inject_Z cy)%Q) by (apply inject_Z_nonneg; unfold cy; lia).
  assert (FitH : (photo_height_of h <= inject_Z H)%Q) by lra.
  destruct (photo_width_bounds h H HH P0 FitH) as (Q0 & R1 & R2).
  assert (FitW : (photo_width_of h <= inject_Z W)%Q) by lra.
  assert (Hfit : too_large (face_frame default_aspect_ratio W H (x, y, w, h)) W H
                 = false).
  { unfold too_large. apply orb_false_iff.
    split; apply Binary64Facts.gtb_false; assumption. }
  pose proof (crop_box_face W H x y w h Hfit) as E.
  destruct (crop_origin_near W H x y w h HW HH Hvalid FitW FitH) as [Ox Oy].
  fold cx in Ox. fold cy in Oy.
  set (f := face_frame default_aspect_ratio W H (x, y, w, h)) in *.
  apply Qabs_Qle_condition in Ox, Oy. destruct Ox as [Ox1 Ox2]. destruct Oy as [Oy1 Oy2].
  assert (Eh : photo_height f = photo_height_of h) by reflexivity.
  assert (Ew : photo_width f = photo_width_of h) by reflexivity.
  pose proof (unclamped_axis (crop_x0 f) (photo_width_of h) W HW Q0
                ltac:(lra) ltac:(lra)) as AX.
  pose proof (unclamped_axis (crop_y0 f) (photo_height_of h) H HH P0
                ltac:(lra) ltac:(lra)) as AY.
  cbv zeta in AX, AY.
  rewrite Eh, Ew in E.
  change (crop_x f)
    with (Binary64.py_max 0
            (Binary64.py_min (crop_x0 f)
               (Binary64.fsub (Binary64.of_int W) (photo_width_of h)))) in E.
  change (crop_y f)
    with (Binary64.py_max 0
            (Binary64.py_min (crop_y0 f)
               (Binary64.fsub (Binary64.of_int H) (photo_height_of h)))) in E.
  match type of E with
  | _ = Ok (?a, ?b, ?c, ?d) =>
      set (bx0 := a) in *; set (by0 := b) in *;
      set (bx1 := c) in *; set (by1 := d) in *
  end.
  destruct AX as (X1 & X2 & X3 & X4). destruct AY as (Y1 & Y2 & Y3 & Y4).
  exists bx0, by0, bx1, by1. split; [exact E |].
  assert (ZQ : forall a b : Z, (inject_Z a < inject_Z b + 1)%Q -> a <= b).
  { intros a b L. change 1%Q with (inject_Z 1) in L.
    rewrite <- inject_Z_plus, <- Zlt_Qlt in L. lia. }
  repeat split; apply ZQ; unfold Z.sub;
    repeat first [rewrite inject_Z_plus | rewrite inject_Z_mult | rewrite inject_Z_opp];
    change (inject_Z 2) with 2%Q; change (inject_Z 10) with 10%Q;
    change (inject_Z 5) with 5%Q; change (inject_Z 3) with 3%Q;
    change (inject_Z (-2)) with (-2)%Q; change (inject_Z (-10)) with (-10)%Q;
    lra.
Qed.

Lemma unclamped_crop_centred_on_face_scenario :
  exists x0 y0 x1 y1,
    crop_box init 1000 1200 (Some (400, 300, 200, 250)) = Ok (x0, y0, x1, y1) /\
    2 * (400 + 200 / 2) - 2 <= x0 + x1 <= 2 * (400 + 200 / 2) /\
    10 * (300 + 250 / 2) - 3 * 250 - 10 <= 5 * (y0 + y1)
                                        <= 10 * (300 + 250 / 2) - 3 * 250.
Proof.
  apply (unclamped_crop_centred_on_face 1000 1200 400 300 200 250);
    [lia | lia | cbn; lia | | | |]; vm_compute; discriminate.
Defined.
